(** * An LC-3 virtual machine (index.c): shallow embedding and properties

    The C program keeps its whole machine in two global arrays,
    [uint16_t memory[65536]] and [uint16_t regs[R_COUNT]], and talks to the
    host through stdio and termios.  The embedding passes that state
    explicitly.  A [uint16_t] is a [Z] in [0, 65536); every store into a
    16-bit cell goes through [wrap16], the conversion C applies on
    assignment. *)

From Stdlib Require Import ZArith Lia Ascii String.
From stdpp Require Import base gmap list strings.

Local Open Scope Z_scope.

(** ** 16-bit words *)

Definition wrap16 (z : Z) : Z := z mod 65536.

Definition is_u16 (z : Z) : Prop := 0 <= z < 65536.

(** The value of a [uint16_t] bit pattern read as two's complement. *)
Definition signed16 (z : Z) : Z := if z <? 32768 then z else z - 65536.

(** ** Sign/endian utilities *)

(** [sign_extend]: the test is [(x >> (bit_count - 1)) & 1]; when it is set,
    [x |= (0xFFFF << bit_count)] is stored back into the 16-bit [x], so only
    the low 16 bits of the shifted mask count.  The callers pass 5, 6, 9 and
    11 for [bit_count]. *)
Definition sign_extend (x bit_count : Z) : Z :=
  if negb (Z.land (Z.shiftr x (bit_count - 1)) 1 =? 0)
  then wrap16 (Z.lor x (Z.shiftl 0xFFFF bit_count))
  else x.

(** [swap_16]: [(x << 8) | (x >> 8)] is computed in [int] and converted to
    [uint16_t] on return. *)
Definition swap_16 (x : Z) : Z :=
  wrap16 (Z.lor (Z.shiftl x 8) (Z.shiftr x 8)).

(** ** Constants of the source *)

Definition MEMORY_MAX : Z := Z.shiftl 1 16.

(** Register indices ([enum { R_R0 = 0, ... , R_COUNT }]). *)
Definition R_R0 : Z := 0.
Definition R_R1 : Z := 1.
Definition R_R2 : Z := 2.
Definition R_R3 : Z := 3.
Definition R_R4 : Z := 4.
Definition R_R5 : Z := 5.
Definition R_R6 : Z := 6.
Definition R_R7 : Z := 7.
Definition R_PC : Z := 8.
Definition R_COND : Z := 9.
Definition R_COUNT : Z := 10.

(** Opcodes. *)
Definition OP_BR : Z := 0.
Definition OP_ADD : Z := 1.
Definition OP_LD : Z := 2.
Definition OP_ST : Z := 3.
Definition OP_JSR : Z := 4.
Definition OP_AND : Z := 5.
Definition OP_LDR : Z := 6.
Definition OP_STR : Z := 7.
Definition OP_RTI : Z := 8.
Definition OP_NOT : Z := 9.
Definition OP_LDI : Z := 10.
Definition OP_STI : Z := 11.
Definition OP_JMP : Z := 12.
Definition OP_RES : Z := 13.
Definition OP_LEA : Z := 14.
Definition OP_TRAP : Z := 15.

(** Condition flags. *)
Definition FL_POS : Z := Z.shiftl 1 0.
Definition FL_ZRO : Z := Z.shiftl 1 1.
Definition FL_NEG : Z := Z.shiftl 1 2.

(** Trap vectors. *)
Definition TRAP_GETC : Z := 0x20.
Definition TRAP_OUT : Z := 0x21.
Definition TRAP_PUTS : Z := 0x22.
Definition TRAP_IN : Z := 0x23.
Definition TRAP_PUTSP : Z := 0x24.
Definition TRAP_HALT : Z := 0x25.

(** Memory-mapped registers. *)
Definition MR_KBSR : Z := 0xFE00.
Definition MR_KBDR : Z := 0xFE02.

Definition PC_START : Z := 0x3000.

(** The value [getchar] returns at end of input. *)
Definition EOF : Z := -1.

(** ** Machine state and host *)

(** A [uint16_t] array is a finite map from index to word; a cell that was
    never written holds 0, as the zero-initialised globals do.  Every index
    the program forms is in range: register numbers are 3-bit fields or enum
    constants, addresses are [uint16_t]. *)
Definition arr_get (a : gmap Z Z) (i : Z) : Z := default 0 (a !! i).
Definition arr_set (a : gmap Z Z) (i v : Z) : gmap Z Z := <[i := wrap16 v]> a.

(** The part of [struct termios] the program looks at. *)
Record termios := Termios {
  c_iflag : Z;
  c_oflag : Z;
  c_cflag : Z;
  c_lflag : Z
}.

(** The host.  Standard input is a stream of bytes that ends.  At any
    moment some of its bytes sit in the buffer [getchar] reads from
    ([buffered]), some wait on descriptor 0, where [select] looks
    ([pending]), and the rest has not arrived yet ([later]); [closed] tells
    whether the end of input has reached the descriptor.  [bufsiz] is the
    size of the stdio buffer, which the C library chooses.  Then the bytes
    written to standard output so far, and the settings the terminal
    currently has. *)
Record host := Host {
  buffered : list Z;
  pending : list Z;
  later : list Z;
  closed : bool;
  bufsiz : nat;
  stdout : list Z;
  tty : termios
}.

(** The bytes [getchar] has still to deliver, in order. *)
Definition stdin (h : host) : list Z := buffered h ++ pending h ++ later h.

Definition with_input (b p l : list Z) (c : bool) (h : host) : host :=
  Host b p l c (bufsiz h) (stdout h) (tty h).
Definition with_stdout (out : list Z) (h : host) : host :=
  Host (buffered h) (pending h) (later h) (closed h) (bufsiz h) out (tty h).

(** The program's variables.  [c_local] is [main]'s local [uint16_t* c] seen
    as an integer.  The source declares and initialises it in the TRAP_PUTS
    case and reads it in the TRAP_IN case, which jumps past that
    initialisation; the object is created anew on every pass through the
    loop body, so what TRAP_IN finds in it is whatever the field holds, and
    no instruction of the model writes it. *)
Record state := State {
  regs : gmap Z Z;
  memory : gmap Z Z;
  original_tio : termios;
  c_local : Z;
  io : host
}.

Definition with_regs (r : gmap Z Z) (s : state) : state :=
  State r (memory s) (original_tio s) (c_local s) (io s).
Definition with_memory (m : gmap Z Z) (s : state) : state :=
  State (regs s) m (original_tio s) (c_local s) (io s).
Definition with_original_tio (t : termios) (s : state) : state :=
  State (regs s) (memory s) t (c_local s) (io s).
Definition with_c_local (c : Z) (s : state) : state :=
  State (regs s) (memory s) (original_tio s) c (io s).
Definition with_io (h : host) (s : state) : state :=
  State (regs s) (memory s) (original_tio s) (c_local s) h.

Definition reg (s : state) (r : Z) : Z := arr_get (regs s) r.
Definition set_reg (r v : Z) (s : state) : state :=
  with_regs (arr_set (regs s) r v) s.
Definition mem (s : state) (a : Z) : Z := arr_get (memory s) a.
Definition set_mem (a v : Z) (s : state) : state :=
  with_memory (arr_set (memory s) a v) s.

(** What one pass through the loop body leaves behind: the loop goes on,
    [running] was cleared, or a trap walked its pointer past the end of
    [memory], where C defines no behaviour. *)
Inductive outcome :=
| Running (s : state)
| Halted (s : state)
| OutOfBounds.

(** ** Host terminal adapter *)

Definition bytes_of_string (s : string) : list Z :=
  map (fun a => Z.of_nat (nat_of_ascii a)) (list_ascii_of_string s).

(** [putc]: the argument is written as an [unsigned char]. *)
Definition putc (ch : Z) (h : host) : host :=
  with_stdout (stdout h ++ [ch mod 256]) h.

Definition put_bytes (bs : list Z) (h : host) : host :=
  with_stdout (stdout h ++ bs) h.

(** [getchar]: the next byte of standard input, or [EOF] at its end.  A
    byte in the stdio buffer is handed out first.  With the buffer empty the
    library reads the descriptor: it takes the bytes waiting there, as many
    as the buffer holds, and hands out the first; if none waits the call
    sleeps until the next byte, or the end of input, arrives. *)
Definition getchar (h : host) : Z * host :=
  match buffered h with
  | b :: rest => (b, with_input rest (pending h) (later h) (closed h) h)
  | [] =>
      match pending h with
      | b :: rest =>
          let n := (Nat.max 1 (bufsiz h) - 1)%nat in
          (b, with_input (take n rest) (drop n rest) (later h) (closed h) h)
      | [] =>
          match later h with
          | b :: rest => (b, with_input [] [] rest (closed h) h)
          | [] => (EOF, with_input [] [] [] true h)
          end
      end
  end.

(** [check_key]: [select] with a zero timeout on descriptor 0, compared
    with 0.  The descriptor is readable when a byte waits on it and when the
    end of input has reached it; what [getchar] holds in its buffer does not
    count. *)
Definition check_key (h : host) : Z :=
  match pending h with
  | _ :: _ => 1
  | [] =>
      match later h with
      | [] => if closed h then 1 else 0
      | _ :: _ => 0
      end
  end.

(** What the world does between two calls: the next [n] bytes arrive on
    the descriptor; the input ends. *)
Definition arrive (n : nat) (h : host) : host :=
  with_input (buffered h) (pending h ++ take n (later h)) (drop n (later h))
    (closed h) h.

Definition hang_up (h : host) : host :=
  with_input (buffered h) (pending h) (later h) true h.

Definition tcsetattr (t : termios) (h : host) : host :=
  Host (buffered h) (pending h) (later h) (closed h) (bufsiz h) (stdout h) t.

Section Terminal.
(** The two [c_lflag] bits come from the system's termios header. *)
Variables ICANON ECHO : Z.

(** [tcgetattr] into [original_tio], then
    [new_tio.c_lflag &= ~ICANON & ~ECHO] and [tcsetattr]. *)
Definition disable_input_buffering (s : state) : state :=
  let s := with_original_tio (tty (io s)) s in
  let new_tio := original_tio s in
  let new_tio :=
    Termios (c_iflag new_tio) (c_oflag new_tio) (c_cflag new_tio)
      (Z.land (c_lflag new_tio) (Z.land (Z.lnot ICANON) (Z.lnot ECHO))) in
  with_io (tcsetattr new_tio (io s)) s.
End Terminal.

Definition restore_input_buffering (s : state) : state :=
  with_io (tcsetattr (original_tio s) (io s)) s.

(** ** Memory interface *)

Definition mem_read (address : Z) (s : state) : Z * state :=
  let address := wrap16 address in
  let s :=
    if address =? MR_KBSR then
      if negb (check_key (io s) =? 0) then
        let s := set_mem MR_KBSR (Z.shiftl 1 15) s in
        let '(ch, h) := getchar (io s) in
        set_mem MR_KBDR ch (with_io h s)
      else set_mem MR_KBSR 0 s
    else s in
  (mem s address, s).

Definition mem_write (addr val : Z) (s : state) : state :=
  set_mem (wrap16 addr) val s.

Definition update_flags (r : Z) (s : state) : state :=
  if reg s r =? 0 then set_reg R_COND FL_ZRO s
  else if negb (Z.shiftr (reg s r) 15 =? 0) then set_reg R_COND FL_NEG s
  else set_reg R_COND FL_POS s.

(** ** Image loader *)

(** One [uint16_t] as [fread] stores it on the little-endian host the source
    is written for: the first byte of the file is the low byte. *)
Definition host_u16 (b0 b1 : Z) : Z := Z.lor b0 (Z.shiftl b1 8).

(** [fread(p, sizeof(uint16_t), max_read, file)]: complete two-byte elements
    are stored at [p], [p+1], ... until [max_read] of them were read or the
    file has no complete element left; the count is returned.  A trailing
    single byte is no element and is not counted, but when there is room
    for one more element the library has copied it into the array all the
    same: it replaces the low byte of the next cell. *)
Fixpoint fread_words (file : list Z) (max_read p : Z) (m : gmap Z Z)
  : nat * gmap Z Z :=
  match file with
  | b0 :: b1 :: rest =>
      if 0 <? max_read then
        let '(n, m') :=
          fread_words rest (max_read - 1) (p + 1) (arr_set m p (host_u16 b0 b1)) in
        (S n, m')
      else (O, m)
  | [b0] =>
      if 0 <? max_read
      then (O, arr_set m p (host_u16 b0 (Z.shiftr (arr_get m p) 8)))
      else (O, m)
  | [] => (O, m)
  end.

(** [while (read-- > 0) { *p = swap_16( *p); ++p; }] *)
Fixpoint swap_words (read : nat) (p : Z) (m : gmap Z Z) : gmap Z Z :=
  match read with
  | O => m
  | S read' => swap_words read' (p + 1) (arr_set m p (swap_16 (arr_get m p)))
  end.

(** [read_image_file].  When the file has no complete first element the C
    code goes on with [origin] uninitialised; the model has no result
    there. *)
Definition read_image_file (file : list Z) (s : state) : option state :=
  match file with
  | b0 :: b1 :: rest =>
      let origin := host_u16 b0 b1 in
      let origin := swap_16 origin in
      let max_read := wrap16 (MEMORY_MAX - origin) in
      let p := origin in
      let '(read, m) := fread_words rest max_read p (memory s) in
      Some (with_memory (swap_words read p m) s)
  | _ => None
  end.

(** The bytes of an image file with origin [O] and payload [ws], big-endian
    word by word. *)
Definition be_bytes (w : Z) : list Z := [Z.shiftr w 8; Z.land w 0xFF].

Definition image_bytes (O : Z) (ws : list Z) : list Z :=
  be_bytes O ++ concat (map be_bytes ws).

(** ** Trap loops *)

(** TRAP_PUTS: [while ( *c) { putc((char)*c, stdout); ++c; }] with [c]
    starting at [memory + regs[R_R0]].  [room] counts the cells from [c] to
    the end of the array. *)
Fixpoint puts_loop (room : nat) (c : Z) (m : gmap Z Z) (h : host) : option host :=
  match room with
  | O => None
  | S room' =>
      if negb (arr_get m c =? 0)
      then puts_loop room' (c + 1) m (putc (arr_get m c) h)
      else Some h
  end.

(** TRAP_PUTSP: the low byte of each word, then the high byte when it is not
    zero. *)
Fixpoint putsp_loop (room : nat) (sp : Z) (m : gmap Z Z) (h : host) : option host :=
  match room with
  | O => None
  | S room' =>
      if negb (arr_get m sp =? 0) then
        let char1 := Z.land (arr_get m sp) 0xFF in
        let h := putc char1 h in
        let char2 := Z.shiftr (arr_get m sp) 8 in
        let h := if negb (char2 mod 256 =? 0) then putc char2 h else h in
        putsp_loop room' (sp + 1) m h
      else Some h
  end.

(** ** The instruction switch *)

Definition execute (instr : Z) (s : state) : outcome :=
  let op := Z.shiftr instr 12 in
  if op =? OP_ADD then
    let r0 := Z.land (Z.shiftr instr 9) 0x7 in
    let r1 := Z.land (Z.shiftr instr 6) 0x7 in
    let imm_flag := Z.land (Z.shiftr instr 5) 0x1 in
    let s :=
      if negb (imm_flag =? 0) then
        let imm5 := sign_extend (Z.land instr 0x1F) 5 in
        set_reg r0 (reg s r1 + imm5) s
      else
        let r2 := Z.land instr 0x7 in
        set_reg r0 (reg s r1 + reg s r2) s in
    Running (update_flags r0 s)
  else if op =? OP_AND then
    let r0 := Z.land (Z.shiftr instr 9) 0x7 in
    let r1 := Z.land (Z.shiftr instr 6) 0x7 in
    let imm_flag := Z.land (Z.shiftr instr 5) 0x1 in
    let s :=
      if negb (imm_flag =? 0) then
        let imm5 := sign_extend (Z.land instr 0x1F) 5 in
        set_reg r0 (Z.land (reg s r1) imm5) s
      else
        let r2 := Z.land instr 0x7 in
        set_reg r0 (Z.land (reg s r1) (reg s r2)) s in
    Running (update_flags r0 s)
  else if op =? OP_NOT then
    let r0 := Z.land (Z.shiftr instr 9) 0x7 in
    let r1 := Z.land (Z.shiftr instr 6) 0x7 in
    let s := set_reg r0 (Z.lnot (reg s r1)) s in
    Running (update_flags r0 s)
  else if op =? OP_BR then
    let cond_flag := Z.land (Z.shiftr instr 9) 0x7 in
    let pcoffset := sign_extend (Z.land instr 0x1FF) 9 in
    if negb (Z.land cond_flag (reg s R_COND) =? 0)
    then Running (set_reg R_PC (reg s R_PC + pcoffset) s)
    else Running s
  else if op =? OP_JMP then
    let r1 := Z.land (Z.shiftr instr 6) 0x7 in
    Running (set_reg R_PC (reg s r1) s)
  else if op =? OP_JSR then
    let cond_flag := Z.land (Z.shiftr instr 11) 1 in
    let s := set_reg R_R7 (reg s R_PC) s in
    if cond_flag =? 0 then
      let r1 := Z.land (Z.shiftr instr 6) 0x7 in
      Running (set_reg R_PC (reg s r1) s)
    else
      Running (set_reg R_PC (reg s R_PC + sign_extend (Z.land instr 0x7FF) 11) s)
  else if op =? OP_LD then
    let r0 := Z.land (Z.shiftr instr 9) 0x7 in
    let '(v, s) := mem_read (reg s R_PC + sign_extend (Z.land instr 0x1FF) 9) s in
    let s := set_reg r0 v s in
    Running (update_flags r0 s)
  else if op =? OP_LDI then
    let r0 := Z.land (Z.shiftr instr 9) 0x7 in
    let pcoffset := sign_extend (Z.land instr 0x1FF) 9 in
    let '(a, s) := mem_read (reg s R_PC + pcoffset) s in
    let '(v, s) := mem_read a s in
    let s := set_reg r0 v s in
    Running (update_flags r0 s)
  else if op =? OP_LDR then
    let r0 := Z.land (Z.shiftr instr 9) 0x7 in
    let r1 := Z.land (Z.shiftr instr 6) 0x7 in
    let offset_6 := sign_extend (Z.land instr 0x3F) 6 in
    let '(v, s) := mem_read (reg s r1 + offset_6) s in
    let s := set_reg r0 v s in
    Running (update_flags r0 s)
  else if op =? OP_LEA then
    let r0 := Z.land (Z.shiftr instr 9) 0x7 in
    let pcoffset := sign_extend (Z.land instr 0x1FF) 9 in
    let s := set_reg r0 (reg s R_PC + pcoffset) s in
    Running (update_flags r0 s)
  else if op =? OP_ST then
    let r0 := Z.land (Z.shiftr instr 9) 0x7 in
    let pcoffset := sign_extend (Z.land instr 0x1FF) 9 in
    Running (mem_write (reg s R_PC + pcoffset) (reg s r0) s)
  else if op =? OP_STI then
    let r0 := Z.land (Z.shiftr instr 9) 0x7 in
    let pcoffset := sign_extend (Z.land instr 0x1FF) 9 in
    let '(a, s) := mem_read (reg s R_PC + pcoffset) s in
    Running (mem_write a (reg s r0) s)
  else if op =? OP_STR then
    let r0 := Z.land (Z.shiftr instr 9) 0x7 in
    let r1 := Z.land (Z.shiftr instr 6) 0x7 in
    let pcoffset := sign_extend (Z.land instr 0x3F) 6 in
    Running (mem_write (reg s r1 + pcoffset) (reg s r0) s)
  else if op =? OP_TRAP then
    let s := set_reg R_R7 (reg s R_PC) s in
    let vect := Z.land instr 0xFF in
    if vect =? TRAP_GETC then
      let '(ch, h) := getchar (io s) in
      let s := set_reg R_R0 ch (with_io h s) in
      Running (update_flags R_R0 s)
    else if vect =? TRAP_OUT then
      Running (with_io (putc (reg s R_R0) (io s)) s)
    else if vect =? TRAP_PUTS then
      let c := reg s R_R0 in
      match puts_loop (Z.to_nat (MEMORY_MAX - c)) c (memory s) (io s) with
      | Some h => Running (with_io h s)
      | None => OutOfBounds
      end
    else if vect =? TRAP_IN then
      let h := put_bytes (bytes_of_string "Enter a character: ") (io s) in
      let '(ch, h) := getchar h in
      let h := putc ch h in
      let s := set_reg R_R0 (c_local s) (with_io h s) in
      Running (update_flags R_R0 s)
    else if vect =? TRAP_PUTSP then
      let sp := reg s R_R0 in
      match putsp_loop (Z.to_nat (MEMORY_MAX - sp)) sp (memory s) (io s) with
      | Some h => Running (with_io h s)
      | None => OutOfBounds
      end
    else if vect =? TRAP_HALT then
      let h := put_bytes (bytes_of_string "HALT" ++ [10]) (io s) in
      Halted (with_io h s)
    else Running s
  else
    (* OP_RES, OP_RTI, default *)
    Running s.

(** [uint16_t instr = mem_read(regs[R_PC]++);] *)
Definition fetch (s : state) : Z * state :=
  let pc := reg s R_PC in
  let s := set_reg R_PC (pc + 1) s in
  mem_read pc s.

(** One pass through the body of the [while (running)] loop. *)
Definition step (s : state) : outcome :=
  let '(instr, s) := fetch s in
  execute instr s.

(** The loop, cut off after [fuel] passes. *)
Fixpoint run (fuel : nat) (s : state) : outcome :=
  match fuel with
  | O => Running s
  | S fuel' =>
      match step s with
      | Running s' => run fuel' s'
      | o => o
      end
  end.

(** ** Program start and stop *)

(** How the process ends: [exit(status)] or a return from [main]; no
    behaviour defined by the source; or still in the loop when the fuel ran
    out. *)
Inductive ending :=
| Exit (status : Z) (s : state)
| NoBehaviour
| StillRunning (s : state).

(** The exit status the parent process sees. *)
Definition exit_status (status : Z) : Z := status mod 256.

(** The SIGINT handler. *)
Definition handle_interrupt (s : state) : ending :=
  let s := restore_input_buffering s in
  let s := with_io (put_bytes [10] (io s)) s in
  Exit (-2) s.

(** [read_image]: [fs] is what [fopen] finds under a path. *)
Definition read_image (fs : string -> option (list Z)) (image_path : string)
    (s : state) : option (Z * state) :=
  match fs image_path with
  | None => Some (0, s)
  | Some file =>
      match read_image_file file s with
      | Some s' => Some (1, s')
      | None => None
      end
  end.

(** The [for] loop over [argv[1..]]: [inl] carries the path that failed to
    open. *)
Fixpoint load_images (fs : string -> option (list Z)) (paths : list string)
    (s : state) : option (string * state + state) :=
  match paths with
  | [] => Some (inr s)
  | path :: rest =>
      match read_image fs path s with
      | None => None
      | Some (ok, s') =>
          if ok =? 0 then Some (inl (path, s')) else load_images fs rest s'
      end
  end.

Section Main.
Variables ICANON ECHO : Z.
Variable fs : string -> option (list Z).

(** [main]: [argv] includes the program name; the loop gets [fuel] passes. *)
Definition main (argv : list string) (fuel : nat) (s : state) : ending :=
  let s := disable_input_buffering ICANON ECHO s in
  if Z.of_nat (length argv) <? 2 then
    Exit 2 (with_io (put_bytes (bytes_of_string "lc3 [image-file]..." ++ [10]) (io s)) s)
  else
    match load_images fs (tail argv) s with
    | None => NoBehaviour
    | Some (inl (path, s)) =>
        Exit 1 (with_io (put_bytes (bytes_of_string "failed to load image: "
                                      ++ bytes_of_string path ++ [10]) (io s)) s)
    | Some (inr s) =>
        let s := set_reg R_COND FL_ZRO s in
        let s := set_reg R_PC PC_START s in
        match run fuel s with
        | Halted s => Exit 0 s
        | Running s => StillRunning s
        | OutOfBounds => NoBehaviour
        end
    end.
End Main.

(** The program's variables as the loader finds them: globals zeroed. *)
Definition boot (c : Z) (h : host) : state :=
  State ∅ ∅ (Termios 0 0 0 0) c h.

(** ** Vocabulary for the properties *)

(** The state at the top of the first pass through the loop: [main] has set
    COND and PC in the zeroed register file; memory holds whatever the
    images put there. *)
Definition initial (s : state) : Prop :=
  regs s = arr_set (arr_set ∅ R_COND FL_ZRO) R_PC PC_START.

(** States the loop can be in.  [c_local] is a fresh object in every pass,
    so any value may stand in it; between passes more input may arrive, or
    the input may end. *)
Inductive reachable : state -> Prop :=
| reach_initial s : initial s -> reachable s
| reach_running s s' : reachable s -> step s = Running s' -> reachable s'
| reach_halted s s' : reachable s -> step s = Halted s' -> reachable s'
| reach_c_local s c : reachable s -> reachable (with_c_local c s)
| reach_arrive s n : reachable s -> reachable (with_io (arrive n (io s)) s)
| reach_hang_up s : reachable s -> reachable (with_io (hang_up (io s)) s).

(** The register whose value the flags follow, for the instructions that
    update them: DR for ADD, AND, NOT, LD, LDI, LDR and LEA, R0 for the GETC
    and IN traps. *)
Definition flag_dest (instr : Z) : option Z :=
  let op := Z.shiftr instr 12 in
  if (op =? OP_ADD) || (op =? OP_AND) || (op =? OP_NOT) || (op =? OP_LD)
     || (op =? OP_LDI) || (op =? OP_LDR) || (op =? OP_LEA)
  then Some (Z.land (Z.shiftr instr 9) 0x7)
  else if (op =? OP_TRAP)
          && ((Z.land instr 0xFF =? TRAP_GETC) || (Z.land instr 0xFF =? TRAP_IN))
  then Some R_R0
  else None.

(** The flag that goes with a signed value. *)
Definition flag_of_sign (v : Z) : Z :=
  if v =? 0 then FL_ZRO else if v <? 0 then FL_NEG else FL_POS.

Definition known_trap (vect : Z) : bool :=
  (vect =? TRAP_GETC) || (vect =? TRAP_OUT) || (vect =? TRAP_PUTS)
  || (vect =? TRAP_IN) || (vect =? TRAP_PUTSP) || (vect =? TRAP_HALT).

(** ** Sample machines *)

Definition plain_tty : termios := Termios 0 0 0 0.

(** A terminal on which nothing has been typed yet; the stdio buffer holds
    1024 bytes. *)
Definition quiet_host : host := Host [] [] [] false 1024 [] plain_tty.

(** The user has typed [a]. *)
Definition host_with_a : host := with_input [] [0x61] [] false quiet_host.

Definition idle_machine : state := boot 0 quiet_host.
Definition keyed_machine : state := boot 0 host_with_a.

(** The flag [update_flags] picks for a register value. *)
Definition flag_word (v : Z) : Z :=
  if v =? 0 then FL_ZRO
  else if negb (Z.shiftr v 15 =? 0) then FL_NEG
  else FL_POS.

(** The machine as the loop first finds it, with one instruction placed at
    0x3000.  0x127F is ADD R1, R1, #-1; 0x41C0 is JSRR R7; 0xD000 has the
    reserved opcode; 0xF0FF is a TRAP with a vector no service routine
    answers to. *)
Definition start_machine (instr : Z) : state :=
  set_reg R_PC PC_START
    (set_reg R_COND FL_ZRO (set_mem PC_START instr idle_machine)).

(** The same with a value already in R7. *)
Definition at_pc_start (instr : Z) (r7 : Z) : state :=
  set_reg R_R7 r7 (start_machine instr).

(** About to run AND R0,R0,#0 with 0x1234 in R0 and COND = POS. *)
Definition and_machine : state :=
  set_reg R_COND FL_POS (set_reg R_R0 0x1234 (start_machine 0x5020)).

(** A property of the state an outcome carries, if it carries one. *)
Definition outcome_holds (P : state -> Prop) (o : outcome) : Prop :=
  match o with
  | Running s | Halted s => P s
  | OutOfBounds => True
  end.

(** COND holds one of the three flag values. *)
Definition cond_ok (s : state) : Prop :=
  reg s R_COND = FL_POS \/ reg s R_COND = FL_ZRO \/ reg s R_COND = FL_NEG.

(** The user types [A] at the IN prompt; [c] holds nothing useful. *)
Definition typed_A_machine : state :=
  with_io (with_input [] [0x41] [] false quiet_host) (start_machine 0xF023).

(** TRAP IN. *)
Definition trap_in_instr : Z := 0xF023.

(** What TRAP IN writes: the prompt, then the echo of the byte read. *)
Definition in_prompt : list Z := bytes_of_string "Enter a character: ".

(** An image with origin 0 and the single payload word 0x1234, and the same
    payload at the usual origin. *)
Definition image_at_zero : list Z := image_bytes 0 [0x1234].
Definition image_at_3000 : list Z := image_bytes 0x3000 [0x1234].

(** The terminal side of a state: what the terminal is set to now, and what
    the program has saved in [original_tio]. *)
Definition term_of (s : state) : termios * termios :=
  (tty (io s), original_tio s).

(** A terminal in canonical mode with echo, as a shell leaves it.  The bit
    values are Linux's: ICANON is 0x2, ECHO is 0x8. *)
Definition linux_ICANON : Z := 0x2.
Definition linux_ECHO : Z := 0x8.
Definition cooked_tty : termios := Termios 0x4500 0x5 0xBF 0x8A3B.
Definition cooked_host : host := tcsetattr cooked_tty quiet_host.

(** An image that halts at once: origin 0x3000, TRAP HALT. *)
Definition halt_image : list Z := image_bytes 0x3000 [0xF025].
Definition halt_fs (path : string) : option (list Z) := Some halt_image.
Definition halt_argv : list string := ["lc3"; "halt.obj"]%string.

(** ** Vocabulary for the instruction properties *)

(** An [n]-bit field read as a two's-complement number. *)
Definition signed_field (x n : Z) : Z :=
  if x <? 2 ^ (n - 1) then x else x - 2 ^ n.

(** The bytes TRAP_PUTSP writes for one word: the low byte, then the high
    byte unless it is zero. *)
Definition packed_bytes (w : Z) : list Z :=
  w mod 256 :: (if (w / 256) mod 256 =? 0 then [] else [(w / 256) mod 256]).

(** The words [ws] stand in the array from index [a] on. *)
Definition stored_at (m : gmap Z Z) (a : Z) (ws : list Z) : Prop :=
  forall (i : nat) w, ws !! i = Some w -> arr_get m (a + Z.of_nat i) = w.

(** A machine about to print the string at 0x4000 ('H', 'i', 0). *)
Definition hi_machine (instr : Z) : state :=
  set_reg R_R0 0x4000
    (set_mem 0x4000 0x48 (set_mem 0x4001 0x69 (start_machine instr))).

(** The same string packed two characters to a word. *)
Definition packed_hi_machine (instr : Z) : state :=
  set_reg R_R0 0x4000 (set_mem 0x4000 0x6948 (start_machine instr)).

(** R0 points at the last cell of memory, which holds a non-zero word. *)
Definition last_cell_machine (instr : Z) : state :=
  set_reg R_R0 0xFFFF (set_mem 0xFFFF 0x21 (start_machine instr)).

(** A property of the state a halting pass leaves. *)
Definition halted_holds (P : state -> Prop) (o : outcome) : Prop :=
  match o with
  | Halted s => P s
  | _ => True
  end.

(** What TRAP HALT prints. *)
Definition halt_message : list Z := bytes_of_string "HALT" ++ [10].

(** The line [main] prints when no image is named, and the one it prints
    for an image it cannot open. *)
Definition usage_message : list Z :=
  bytes_of_string "lc3 [image-file]..." ++ [10].

Definition load_failure_message (path : string) : list Z :=
  bytes_of_string "failed to load image: " ++ bytes_of_string path ++ [10].

(** A file system without the image asked for. *)
Definition empty_fs (path : string) : option (list Z) := None.

(** The cells an image with origin [O] and payload [ws] occupies. *)
Definition image_range (O : Z) (ws : list Z) (a : Z) : Prop :=
  O <= a < O + Z.min (Z.of_nat (length ws)) (65536 - O).

(** Two keys typed ahead: [a] then [b]. *)
Definition typeahead_machine : state :=
  with_io (with_input [] [0x61; 0x62] [] false quiet_host) idle_machine.

(** Standard input is at its end and nothing of it is left. *)
Definition ended_machine : state :=
  with_io (hang_up quiet_host) idle_machine.

(** A machine that read one image and sits in the loop, on a terminal that
    was in canonical mode with echo. *)
Definition cooked_start : state :=
  disable_input_buffering linux_ICANON linux_ECHO (boot 0 cooked_host).

(** * Properties *)

(** ** Bit-level reasoning *)

Lemma wrap16_pow2 z : wrap16 z = z mod 2 ^ 16.
Proof. reflexivity. Qed.

Lemma wrap16_range z : is_u16 (wrap16 z).
Proof. unfold is_u16, wrap16. apply Z.mod_pos_bound. lia. Qed.

Lemma wrap16_small z : is_u16 z -> wrap16 z = z.
Proof. unfold is_u16, wrap16. intros H. apply Z.mod_small. exact H. Qed.

Lemma wrap16_idemp z : wrap16 (wrap16 z) = wrap16 z.
Proof. apply wrap16_small, wrap16_range. Qed.

Lemma testbit_wrap16 z i :
  Z.testbit (wrap16 z) i = (i <? 16) && Z.testbit z i.
Proof. rewrite wrap16_pow2. apply Z.testbit_mod_pow2. lia. Qed.

Lemma testbit_u16_high x i : is_u16 x -> 16 <= i -> Z.testbit x i = false.
Proof.
  intros Hx Hi. rewrite <- (wrap16_small x Hx), testbit_wrap16.
  destruct (Z.ltb_spec i 16); [lia | reflexivity].
Qed.

Lemma testbit_shiftl_total a n m :
  Z.testbit (Z.shiftl a n) m = (0 <=? m) && Z.testbit a (m - n).
Proof.
  destruct (Z.leb_spec 0 m) as [Hm|Hm].
  - now rewrite Z.shiftl_spec.
  - now rewrite Z.testbit_neg_r.
Qed.

Lemma testbit_shiftr_total a n m :
  Z.testbit (Z.shiftr a n) m = (0 <=? m) && Z.testbit a (m + n).
Proof.
  destruct (Z.leb_spec 0 m) as [Hm|Hm].
  - now rewrite Z.shiftr_spec.
  - now rewrite Z.testbit_neg_r.
Qed.

Lemma testbit_0xFFFF i : Z.testbit 0xFFFF i = (0 <=? i) && (i <? 16).
Proof. change 0xFFFF with (Z.ones 16). apply Z.testbit_ones. lia. Qed.

Lemma testbit_0xFF i : Z.testbit 0xFF i = (0 <=? i) && (i <? 8).
Proof. change 0xFF with (Z.ones 8). apply Z.testbit_ones. lia. Qed.

(** Push [Z.testbit] through the operators the C code uses, then split on
    the comparisons that remain. *)
Ltac bits_push :=
  repeat first
    [ rewrite testbit_wrap16 | rewrite Z.lor_spec | rewrite Z.land_spec
    | rewrite testbit_shiftl_total | rewrite testbit_shiftr_total
    | rewrite testbit_0xFFFF | rewrite testbit_0xFF ].

Ltac cmp_split :=
  repeat match goal with
  | |- context [?a <? ?b] => destruct (Z.ltb_spec a b)
  | |- context [?a <=? ?b] => destruct (Z.leb_spec a b)
  end; simpl; try (exfalso; lia).

(** Bits of a 16-bit [x] outside positions 0..15 are clear. *)
Ltac bits_known Hx :=
  repeat match goal with
  | |- context [Z.testbit ?x ?j] =>
      first [ rewrite (Z.testbit_neg_r x j) by lia
            | rewrite (testbit_u16_high x j Hx) by lia ]
  end.

Ltac bits_close :=
  repeat match goal with
  | |- context [Z.testbit ?x ?j] => progress (ring_simplify j)
  end;
  repeat match goal with
  | |- context [Z.testbit ?x ?j] => destruct (Z.testbit x j)
  end; reflexivity.

(** The low bit of [x >> k] is bit [k] of [x]. *)
Lemma low_bit_shiftr x k :
  0 <= k -> (Z.land (Z.shiftr x k) 1 =? 0) = negb (Z.testbit x k).
Proof.
  intros Hk.
  change 1 with (Z.ones 1). rewrite Z.land_ones by lia.
  rewrite Z.shiftr_div_pow2 by lia. change (2 ^ 1) with 2.
  rewrite Z.testbit_eqb by lia.
  pose proof (Z.mod_pos_bound (x / 2 ^ k) 2 ltac:(lia)).
  destruct (Z.eqb_spec ((x / 2 ^ k) mod 2) 0), (Z.eqb_spec ((x / 2 ^ k) mod 2) 1);
    simpl; lia.
Qed.

(** ** Properties of [swap_16] *)

Lemma swap_16_range x : is_u16 (swap_16 x).
Proof. apply wrap16_range. Qed.

Lemma swap_16_masked x :
  is_u16 x ->
  swap_16 x = Z.lor (Z.shiftl (Z.land x 0xFF) 8) (Z.shiftr x 8).
Proof.
  intros Hx. apply Z.bits_inj'. intros i Hi. unfold swap_16.
  bits_push. cmp_split; bits_known Hx; bits_close.
Qed.

Lemma swap_16_involutive x : is_u16 x -> swap_16 (swap_16 x) = x.
Proof.
  intros Hx. apply Z.bits_inj'. intros i Hi. unfold swap_16.
  bits_push. cmp_split; bits_known Hx; bits_close.
Qed.

(** C9: for every 16-bit [x], [swap_16 x] is [((x & 0xFF) << 8) | (x >> 8)],
    and [swap_16] is an involution. *)
Theorem C9_swap_16_spec (x : Z) (Hx : is_u16 x) :
  swap_16 x = Z.lor (Z.shiftl (Z.land x 0xFF) 8) (Z.shiftr x 8)
  /\ swap_16 (swap_16 x) = x.
Proof. split; [now apply swap_16_masked | now apply swap_16_involutive]. Qed.

Lemma C9_swap_16_spec_witness :
  is_u16 0x1234
  /\ swap_16 0x1234 = Z.lor (Z.shiftl (Z.land 0x1234 0xFF) 8) (Z.shiftr 0x1234 8)
  /\ swap_16 (swap_16 0x1234) = 0x1234.
Proof.
  assert (H : is_u16 0x1234) by (unfold is_u16; lia).
  split; [exact H | exact (C9_swap_16_spec 0x1234 H)].
Defined.

(** ** Properties of [sign_extend] *)

Lemma sign_extend_test x n :
  1 <= n ->
  sign_extend x n =
    if Z.testbit x (n - 1)
    then wrap16 (Z.lor x (Z.shiftl 0xFFFF n))
    else x.
Proof.
  intros Hn. unfold sign_extend.
  rewrite low_bit_shiftr by lia. rewrite negb_involutive. reflexivity.
Qed.

Lemma mask_is_ones n : Z.shiftl 1 n - 1 = Z.ones n.
Proof. reflexivity. Qed.

(** Within 16 bits, [0xFFFF << n] and [~((1 << n) - 1)] set the same bits. *)
Lemma high_mask_wrap16 x n :
  1 <= n <= 16 ->
  wrap16 (Z.lor x (Z.shiftl 0xFFFF n))
  = wrap16 (Z.lor x (Z.lnot (Z.shiftl 1 n - 1))).
Proof.
  intros Hn. rewrite mask_is_ones.
  apply Z.bits_inj'. intros i Hi. bits_push.
  rewrite Z.lnot_spec by lia. rewrite Z.testbit_ones by lia.
  cmp_split; reflexivity.
Qed.

Lemma sign_extend_field x n :
  1 <= n -> 0 <= x < 2 ^ n -> Z.land x (Z.shiftl 1 n - 1) = x.
Proof.
  intros Hn Hx. rewrite mask_is_ones, Z.land_ones by lia.
  now apply Z.mod_small.
Qed.

(** C6, as the code has it: for every 16-bit [x] and [1 <= n <= 16], when
    bit [n-1] of [x] is clear [sign_extend x n] is [x] itself, which is
    [x & ((1<<n)-1)] whenever [x] has no bit set at position [n] or above;
    when bit [n-1] is set it is [x | ~((1<<n)-1)] cut to 16 bits. *)
Theorem C6_sign_extend_spec (x n : Z) (Hx : is_u16 x) (Hn : 1 <= n <= 16) :
  (Z.testbit x (n - 1) = false ->
     sign_extend x n = x
     /\ (x < 2 ^ n -> sign_extend x n = Z.land x (Z.shiftl 1 n - 1)))
  /\ (Z.testbit x (n - 1) = true ->
     sign_extend x n = wrap16 (Z.lor x (Z.lnot (Z.shiftl 1 n - 1)))).
Proof.
  rewrite sign_extend_test by lia. split; intros Hbit; rewrite Hbit.
  - split; [reflexivity|]. intros Hlt. symmetry.
    apply sign_extend_field; [lia|]. unfold is_u16 in Hx. lia.
  - now apply high_mask_wrap16.
Qed.

Lemma C6_sign_extend_spec_witness :
  (sign_extend 0x0A 5 = 0x0A
   /\ sign_extend 0x0A 5 = Z.land 0x0A (Z.shiftl 1 5 - 1))
  /\ sign_extend 0x1F 5 = wrap16 (Z.lor 0x1F (Z.lnot (Z.shiftl 1 5 - 1))).
Proof.
  split.
  - destruct (C6_sign_extend_spec 0x0A 5) as [H _];
      [unfold is_u16; lia | lia |].
    destruct (H eq_refl) as [H1 H2]. split; [exact H1 | apply H2; lia].
  - destruct (C6_sign_extend_spec 0x1F 5) as [_ H];
      [unfold is_u16; lia | lia |].
    exact (H eq_refl).
Defined.

(** C6 as stated fails: [0x0100] has bit 4 clear, and [sign_extend] hands it
    back whole instead of masking it to its low five bits. *)
Lemma C6_sign_extend_counterexample :
  is_u16 0x0100 /\ 1 <= 5 <= 16 /\ Z.testbit 0x0100 (5 - 1) = false
  /\ sign_extend 0x0100 5 = 0x0100
  /\ Z.land 0x0100 (Z.shiftl 1 5 - 1) = 0
  /\ sign_extend 0x0100 5 <> Z.land 0x0100 (Z.shiftl 1 5 - 1).
Proof.
  unfold is_u16. repeat split; try lia; try reflexivity.
  vm_compute. discriminate.
Qed.

(** ** Arrays, registers and memory cells *)

Lemma arr_get_set_eq a i v : arr_get (arr_set a i v) i = wrap16 v.
Proof. unfold arr_get, arr_set. now rewrite lookup_insert_eq. Qed.

Lemma arr_get_set_ne a i j v : i <> j -> arr_get (arr_set a i v) j = arr_get a j.
Proof. intros H. unfold arr_get, arr_set. now rewrite lookup_insert_ne. Qed.

Lemma reg_set_reg_eq r v s : reg (set_reg r v s) r = wrap16 v.
Proof. apply arr_get_set_eq. Qed.

Lemma reg_set_reg_ne r r' v s : r <> r' -> reg (set_reg r v s) r' = reg s r'.
Proof. apply arr_get_set_ne. Qed.

Lemma mem_set_mem_eq a v s : mem (set_mem a v s) a = wrap16 v.
Proof. apply arr_get_set_eq. Qed.

Lemma mem_set_mem_ne a a' v s : a <> a' -> mem (set_mem a v s) a' = mem s a'.
Proof. apply arr_get_set_ne. Qed.

Lemma land_7_range x : 0 <= Z.land x 0x7 <= 7.
Proof.
  change (Z.land x 0x7) with (Z.land x (Z.ones 3)). rewrite Z.land_ones by lia.
  change (2 ^ 3) with 8. pose proof (Z.mod_pos_bound x 8). lia.
Qed.

(** A 3-bit register field never names PC or COND. *)
Lemma field_not_special x :
  Z.land x 0x7 <> R_PC /\ Z.land x 0x7 <> R_COND.
Proof. pose proof (land_7_range x). unfold R_PC, R_COND. lia. Qed.

(** ** Standard input *)

Lemma getchar_next h key rest :
  stdin h = key :: rest ->
  fst (getchar h) = key /\ stdin (snd (getchar h)) = rest.
Proof.
  unfold stdin, getchar. intros H.
  destruct (buffered h) as [|b bs]; [destruct (pending h) as [|b bs]|];
    [destruct (later h) as [|b bs]| |]; cbn in H |- *.
  - discriminate.
  - now inversion H.
  - inversion H; subst. split; [reflexivity|].
    now rewrite app_assoc, take_drop.
  - now inversion H.
Qed.

Lemma getchar_end h :
  stdin h = [] -> fst (getchar h) = EOF /\ stdin (snd (getchar h)) = [].
Proof.
  unfold stdin, getchar. intros H.
  destruct (buffered h); [|discriminate].
  destruct (pending h); [|discriminate].
  destruct (later h); [|discriminate]. now split.
Qed.

Lemma getchar_output h :
  stdout (snd (getchar h)) = stdout h /\ tty (snd (getchar h)) = tty h.
Proof.
  unfold getchar.
  destruct (buffered h); [destruct (pending h); [destruct (later h)|]|];
    now split.
Qed.

(** ** Reading memory *)

Lemma mem_read_plain addr s :
  wrap16 addr <> MR_KBSR -> mem_read addr s = (mem s (wrap16 addr), s).
Proof.
  intros H. unfold mem_read.
  destruct (Z.eqb_spec (wrap16 addr) MR_KBSR); [contradiction | reflexivity].
Qed.

Lemma mem_read_kbsr_idle s :
  check_key (io s) = 0 ->
  mem_read MR_KBSR s = (0, set_mem MR_KBSR 0 s).
Proof.
  intros H. unfold mem_read. rewrite H. simpl.
  now rewrite mem_set_mem_eq.
Qed.

Lemma mem_read_kbsr_ready s :
  check_key (io s) <> 0 ->
  mem_read MR_KBSR s =
    (0x8000,
     set_mem MR_KBDR (fst (getchar (io s)))
       (with_io (snd (getchar (io s)))
          (set_mem MR_KBSR (Z.shiftl 1 15) s))).
Proof.
  intros H. unfold mem_read.
  change (wrap16 MR_KBSR =? MR_KBSR) with true. cbv iota.
  destruct (Z.eqb_spec (check_key (io s)) 0) as [E|_]; [contradiction|].
  cbv [negb]. cbv iota.
  change (io (set_mem MR_KBSR (Z.shiftl 1 15) s)) with (io s).
  destruct (getchar (io s)) as [ch h]. cbn [fst snd]. f_equal.
  rewrite mem_set_mem_ne by (vm_compute; discriminate).
  unfold mem. simpl. now rewrite arr_get_set_eq.
Qed.

(** Where the code does what a status register should: on an open terminal
    with nothing typed the read gives 0; with a key waiting on the
    descriptor and nothing in the stdio buffer it gives 0x8000 and the key
    is in KBDR; any other address is a plain load. *)
Lemma mem_read_keyboard_fresh (s : state) :
  (stdin (io s) = [] -> closed (io s) = false ->
     fst (mem_read MR_KBSR s) = 0)
  /\ (forall key rest,
        buffered (io s) = [] -> pending (io s) = key :: rest ->
        0 <= key < 256 ->
        fst (mem_read MR_KBSR s) = 0x8000
        /\ mem (snd (mem_read MR_KBSR s)) MR_KBDR = key)
  /\ (forall addr, is_u16 addr -> addr <> MR_KBSR ->
        mem_read addr s = (mem s addr, s)).
Proof.
  split; [|split].
  - intros Hin Hc. rewrite mem_read_kbsr_idle; [reflexivity|].
    unfold stdin in Hin. apply app_eq_nil in Hin as [_ Hin].
    apply app_eq_nil in Hin as [Hp Hl].
    unfold check_key. now rewrite Hp, Hl, Hc.
  - intros key rest Hb Hp Hkey.
    rewrite mem_read_kbsr_ready by (unfold check_key; rewrite Hp; discriminate).
    cbn [fst snd]. split; [reflexivity|].
    rewrite mem_set_mem_eq. unfold getchar. rewrite Hb, Hp. cbn [fst].
    apply wrap16_small. unfold is_u16. lia.
  - intros addr Ha Hne. rewrite mem_read_plain; rewrite wrap16_small; auto.
Qed.

(** C5: a read at KBSR is meant to return 0 when no key is ready and 0x8000,
    with the key in memory[KBDR], when one is.  Two runs of the code where
    it does not.  With standard input at its end no key is ready, yet the
    read returns 0x8000 and memory[KBDR] becomes 0xFFFF.  With [a] and [b]
    typed ahead the first read returns 0x8000 and delivers [a], and the
    second returns 0 and leaves [a] in memory[KBDR] although [b] is
    ready. *)
Theorem C5_kbsr_failing_inputs :
  (stdin (io ended_machine) = []
   /\ fst (mem_read MR_KBSR ended_machine) = 0x8000
   /\ mem (snd (mem_read MR_KBSR ended_machine)) MR_KBDR = 0xFFFF)
  /\ (stdin (io typeahead_machine) = [0x61; 0x62]
      /\ fst (mem_read MR_KBSR typeahead_machine) = 0x8000
      /\ mem (snd (mem_read MR_KBSR typeahead_machine)) MR_KBDR = 0x61
      /\ stdin (io (snd (mem_read MR_KBSR typeahead_machine))) = [0x62]
      /\ fst (mem_read MR_KBSR (snd (mem_read MR_KBSR typeahead_machine))) = 0
      /\ mem (snd (mem_read MR_KBSR (snd (mem_read MR_KBSR typeahead_machine))))
           MR_KBDR = 0x61).
Proof. repeat split; vm_compute; reflexivity. Qed.

(** ** Flags *)

Lemma update_flags_set r s :
  update_flags r s = set_reg R_COND (flag_word (reg s r)) s.
Proof.
  unfold update_flags, flag_word.
  destruct (reg s r =? 0); [reflexivity|].
  destruct (negb (Z.shiftr (reg s r) 15 =? 0)); reflexivity.
Qed.

Lemma flag_word_cases v :
  flag_word v = FL_POS \/ flag_word v = FL_ZRO \/ flag_word v = FL_NEG.
Proof.
  unfold flag_word.
  destruct (v =? 0); [auto|].
  destruct (negb (Z.shiftr v 15 =? 0)); auto.
Qed.

Lemma flag_word_u16 v : is_u16 (flag_word v).
Proof.
  destruct (flag_word_cases v) as [H|[H|H]]; rewrite H;
    unfold is_u16; vm_compute; split; congruence.
Qed.

(** On a 16-bit value the test [v >> 15] is the sign of [v] read as two's
    complement. *)
Lemma flag_word_sign v : is_u16 v -> flag_word v = flag_of_sign (signed16 v).
Proof.
  unfold is_u16, flag_word, flag_of_sign, signed16. intros Hv.
  rewrite Z.shiftr_div_pow2 by lia. change (2 ^ 15) with 32768.
  destruct (Z.eqb_spec v 0) as [->|Hnz]; [reflexivity|].
  destruct (Z.ltb_spec v 32768) as [Hlt|Hge].
  - rewrite Z.div_small by lia. simpl.
    destruct (Z.eqb_spec v 0); [lia|].
    destruct (Z.ltb_spec v 0); [lia | reflexivity].
  - assert (Hq : v / 32768 = 1) by (symmetry; apply Z.div_unique with (r := v - 32768); lia).
    rewrite Hq. simpl.
    destruct (Z.eqb_spec (v - 65536) 0); [lia|].
    destruct (Z.ltb_spec (v - 65536) 0); [reflexivity | lia].
Qed.

(** The same in terms of the bit pattern: ZRO exactly for 0, NEG exactly
    when bit 15 is set. *)
Lemma flag_word_bits v :
  is_u16 v ->
  (flag_word v = FL_ZRO <-> v = 0)
  /\ (flag_word v = FL_NEG <-> Z.testbit v 15 = true)
  /\ (flag_word v = FL_POS <-> v <> 0 /\ Z.testbit v 15 = false).
Proof.
  unfold is_u16, flag_word. intros Hv.
  rewrite Z.testbit_eqb by lia.
  rewrite Z.shiftr_div_pow2 by lia. change (2 ^ 15) with 32768.
  assert (Hq : v / 32768 = 0 \/ v / 32768 = 1).
  { destruct (Z.ltb_spec v 32768).
    - left. apply Z.div_small. lia.
    - right. symmetry. apply Z.div_unique with (r := v - 32768); lia. }
  destruct (Z.eqb_spec v 0) as [->|Hnz].
  - cbn. repeat split; intros; try discriminate; tauto.
  - destruct Hq as [Hq|Hq]; rewrite Hq;
      [change (0 mod 2 =? 1) with false | change (1 mod 2 =? 1) with true];
      cbn; repeat split; intros; try discriminate; try tauto;
      repeat match goal with H : _ /\ _ |- _ => destruct H end; discriminate.
Qed.

Lemma reg_update_flags_cond r s :
  reg (update_flags r s) R_COND = flag_word (reg s r).
Proof.
  rewrite update_flags_set, reg_set_reg_eq.
  apply wrap16_small, flag_word_u16.
Qed.

Lemma reg_update_flags_other r r' s :
  r' <> R_COND -> reg (update_flags r s) r' = reg s r'.
Proof.
  intros H. rewrite update_flags_set. apply reg_set_reg_ne. congruence.
Qed.

(** After [regs[r] = v; update_flags(r)] the flag follows the sign of what
    register [r] now holds. *)
Lemma write_then_flags r v s :
  r <> R_COND ->
  let s' := update_flags r (set_reg r v s) in
  reg s' r = wrap16 v
  /\ reg s' R_COND = flag_of_sign (signed16 (reg s' r)).
Proof.
  intros Hr s'. subst s'.
  rewrite reg_update_flags_other by assumption.
  rewrite reg_update_flags_cond, reg_set_reg_eq. split; [reflexivity|].
  apply flag_word_sign, wrap16_range.
Qed.

(** ** The instruction switch, case by case *)

(** Decide the comparisons between constants that select a [case]. *)
Ltac pick_case :=
  repeat match goal with
  | |- context [Z.eqb ?a ?b] =>
      let v := eval vm_compute in (Z.eqb a b) in
      match v with
      | true => change (Z.eqb a b) with true
      | false => change (Z.eqb a b) with false
      end; cbv iota
  end.

Ltac enter_case Hop := unfold execute; rewrite Hop; pick_case.

(** The second operand of ADD and AND. *)
Lemma execute_add instr s :
  Z.shiftr instr 12 = OP_ADD ->
  let r0 := Z.land (Z.shiftr instr 9) 0x7 in
  let r1 := Z.land (Z.shiftr instr 6) 0x7 in
  let operand :=
    if Z.land (Z.shiftr instr 5) 0x1 =? 0
    then reg s (Z.land instr 0x7)
    else sign_extend (Z.land instr 0x1F) 5 in
  execute instr s = Running (update_flags r0 (set_reg r0 (reg s r1 + operand) s)).
Proof.
  intros Hop. enter_case Hop. cbv zeta.
  destruct (Z.land (Z.shiftr instr 5) 1 =? 0); reflexivity.
Qed.

(** C8: ADD stores its sum modulo 2^16; in particular 0x127F
    (ADD R1,R1,#-1) run with R1 = 0 leaves R1 = 0xFFFF and COND = NEG. *)
Theorem C8_add_wraps :
  (forall instr s,
      Z.shiftr instr 12 = OP_ADD ->
      exists s',
        execute instr s = Running s'
        /\ reg s' (Z.land (Z.shiftr instr 9) 0x7)
           = (reg s (Z.land (Z.shiftr instr 6) 0x7)
              + (if Z.land (Z.shiftr instr 5) 0x1 =? 0
                 then reg s (Z.land instr 0x7)
                 else sign_extend (Z.land instr 0x1F) 5)) mod 2 ^ 16)
  /\ (forall s,
      reg s R_R1 = 0 ->
      exists s',
        execute 0x127F s = Running s'
        /\ reg s' R_R1 = 0xFFFF /\ reg s' R_COND = FL_NEG).
Proof.
  split.
  - intros instr s Hop. eexists. split; [now apply execute_add|].
    apply write_then_flags. apply field_not_special.
  - intros s H1. eexists. split; [now apply execute_add|].
    change (Z.land (Z.shiftr 0x127F 9) 0x7) with R_R1.
    change (Z.land (Z.shiftr 0x127F 6) 0x7) with R_R1.
    change (Z.land (Z.shiftr 0x127F 5) 0x1 =? 0) with false. cbv iota.
    change (sign_extend (Z.land 0x127F 0x1F) 5) with 0xFFFF.
    rewrite H1.
    destruct (write_then_flags R_R1 (0 + 0xFFFF) s) as [Hv Hc];
      [unfold R_R1, R_COND; lia|].
    split; [exact Hv|]. rewrite Hc, Hv. reflexivity.
Qed.

Lemma C8_add_wraps_witness :
  (exists s',
      execute 0x127F (at_pc_start 0x127F 0) = Running s'
      /\ reg s' (Z.land (Z.shiftr 0x127F 9) 0x7)
         = (reg (at_pc_start 0x127F 0) (Z.land (Z.shiftr 0x127F 6) 0x7)
            + (if Z.land (Z.shiftr 0x127F 5) 0x1 =? 0
               then reg (at_pc_start 0x127F 0) (Z.land 0x127F 0x7)
               else sign_extend (Z.land 0x127F 0x1F) 5)) mod 2 ^ 16)
  /\ (exists s',
      execute 0x127F (at_pc_start 0x127F 0) = Running s'
      /\ reg s' R_R1 = 0xFFFF /\ reg s' R_COND = FL_NEG).
Proof.
  split.
  - apply (proj1 C8_add_wraps). reflexivity.
  - apply (proj2 C8_add_wraps). reflexivity.
Defined.

(** ** Fetch *)

(** A memory read never touches the register file. *)
Lemma mem_read_regs addr s : regs (snd (mem_read addr s)) = regs s.
Proof.
  unfold mem_read. simpl.
  destruct (wrap16 addr =? MR_KBSR); [|reflexivity].
  destruct (negb (check_key (io s) =? 0)); [|reflexivity].
  simpl. destruct (getchar (io s)) as [ch h]. reflexivity.
Qed.

Lemma mem_read_reg addr s v s' r :
  mem_read addr s = (v, s') -> reg s' r = reg s r.
Proof.
  intros H. unfold reg.
  replace s' with (snd (mem_read addr s)) by now rewrite H.
  now rewrite mem_read_regs.
Qed.

(** The fetch increments PC and leaves every other register alone. *)
Lemma fetch_reg_pc s instr s1 :
  fetch s = (instr, s1) -> reg s1 R_PC = wrap16 (reg s R_PC + 1).
Proof.
  unfold fetch. intros H.
  rewrite (mem_read_reg _ _ _ _ R_PC H). apply reg_set_reg_eq.
Qed.

Lemma fetch_reg_other s instr s1 r :
  fetch s = (instr, s1) -> r <> R_PC -> reg s1 r = reg s r.
Proof.
  unfold fetch. intros H Hr.
  rewrite (mem_read_reg _ _ _ _ r H). apply reg_set_reg_ne. congruence.
Qed.

(** Away from KBSR the fetch reads the word under PC and changes nothing
    but PC. *)
Lemma fetch_plain s :
  wrap16 (reg s R_PC) <> MR_KBSR ->
  fetch s = (mem s (wrap16 (reg s R_PC)), set_reg R_PC (reg s R_PC + 1) s).
Proof. intros H. unfold fetch. now rewrite mem_read_plain. Qed.

Lemma step_fetch s instr s1 :
  fetch s = (instr, s1) -> step s = execute instr s1.
Proof. intros H. unfold step. now rewrite H. Qed.

(** ** JSR and JSRR *)

Lemma execute_jsrr instr s :
  Z.shiftr instr 12 = OP_JSR ->
  Z.land (Z.shiftr instr 11) 1 = 0 ->
  let s7 := set_reg R_R7 (reg s R_PC) s in
  execute instr s
  = Running (set_reg R_PC (reg s7 (Z.land (Z.shiftr instr 6) 0x7)) s7).
Proof. intros Hop Hmode. enter_case Hop. rewrite Hmode. reflexivity. Qed.

(** C10: JSRR with base register R7 stores the incremented PC in R7 first
    and only then loads PC from R7, so PC ends up at the instruction after
    the JSRR (the new R7), not at what R7 held before. *)
Theorem C10_jsrr_r7 (s : state) (instr : Z) (s1 : state)
    (Hfetch : fetch s = (instr, s1))
    (Hop : Z.shiftr instr 12 = OP_JSR)
    (Hmode : Z.land (Z.shiftr instr 11) 1 = 0)
    (Hbase : Z.land (Z.shiftr instr 6) 0x7 = R_R7) :
  exists s',
    step s = Running s'
    /\ reg s' R_R7 = wrap16 (reg s R_PC + 1)
    /\ reg s' R_PC = reg s' R_R7.
Proof.
  eexists. split.
  - rewrite (step_fetch _ _ _ Hfetch). now apply execute_jsrr.
  - rewrite Hbase.
    rewrite reg_set_reg_eq.
    rewrite (reg_set_reg_ne R_PC R_R7) by (unfold R_PC, R_R7; lia).
    rewrite !reg_set_reg_eq, (fetch_reg_pc _ _ _ Hfetch).
    rewrite !wrap16_idemp. split; reflexivity.
Qed.

Lemma C10_jsrr_r7_witness :
  exists s',
    step (at_pc_start 0x41C0 0x1234) = Running s'
    /\ reg s' R_R7 = wrap16 (reg (at_pc_start 0x41C0 0x1234) R_PC + 1)
    /\ reg s' R_PC = reg s' R_R7.
Proof.
  apply (C10_jsrr_r7 (at_pc_start 0x41C0 0x1234) 0x41C0
           (set_reg R_PC (PC_START + 1) (at_pc_start 0x41C0 0x1234)));
    reflexivity.
Defined.

(** ** Instructions without a handler *)

Lemma known_trap_false vect :
  known_trap vect = false ->
  (vect =? TRAP_GETC) = false /\ (vect =? TRAP_OUT) = false
  /\ (vect =? TRAP_PUTS) = false /\ (vect =? TRAP_IN) = false
  /\ (vect =? TRAP_PUTSP) = false /\ (vect =? TRAP_HALT) = false.
Proof.
  unfold known_trap. intros H.
  repeat (apply orb_false_elim in H; destruct H as [H ?]).
  repeat split; assumption.
Qed.

Lemma execute_res_rti instr s :
  Z.shiftr instr 12 = OP_RES \/ Z.shiftr instr 12 = OP_RTI ->
  execute instr s = Running s.
Proof. intros [Hop|Hop]; enter_case Hop; reflexivity. Qed.

Lemma execute_unknown_trap instr s :
  Z.shiftr instr 12 = OP_TRAP ->
  known_trap (Z.land instr 0xFF) = false ->
  execute instr s = Running (set_reg R_R7 (reg s R_PC) s).
Proof.
  intros Hop Hvect. enter_case Hop.
  destruct (known_trap_false _ Hvect) as (H1 & H2 & H3 & H4 & H5 & H6).
  cbv zeta. rewrite H1, H2, H3, H4, H5, H6. reflexivity.
Qed.

(** C3, as the code has it: the switch does nothing for RES and RTI, so
    after the fetch the state stays as it is; a TRAP with a vector outside
    0x20..0x25 still saves the incremented PC in R7 and changes nothing
    else.  When the instruction is not fetched from KBSR the whole pass
    changes PC only (and R7 for the TRAP). *)
Theorem C3_unhandled_instructions (s : state) (instr : Z) :
  (Z.shiftr instr 12 = OP_RES \/ Z.shiftr instr 12 = OP_RTI ->
     execute instr s = Running s
     /\ (wrap16 (reg s R_PC) <> MR_KBSR -> mem s (wrap16 (reg s R_PC)) = instr ->
         step s = Running (set_reg R_PC (reg s R_PC + 1) s)))
  /\ (Z.shiftr instr 12 = OP_TRAP -> known_trap (Z.land instr 0xFF) = false ->
     (exists s',
        execute instr s = Running s'
        /\ reg s' R_R7 = wrap16 (reg s R_PC)
        /\ (forall r, r <> R_R7 -> reg s' r = reg s r)
        /\ memory s' = memory s /\ io s' = io s)
     /\ (wrap16 (reg s R_PC) <> MR_KBSR -> mem s (wrap16 (reg s R_PC)) = instr ->
         step s = Running (set_reg R_R7 (reg s R_PC + 1)
                             (set_reg R_PC (reg s R_PC + 1) s)))).
Proof.
  split.
  - intros Hop. split; [now apply execute_res_rti|].
    intros Hpc Hinstr.
    rewrite (step_fetch s instr (set_reg R_PC (reg s R_PC + 1) s)).
    + now apply execute_res_rti.
    + rewrite fetch_plain by assumption. now rewrite Hinstr.
  - intros Hop Hvect. split.
    + eexists. split; [now apply execute_unknown_trap|].
      rewrite reg_set_reg_eq. repeat split.
      intros r Hr. apply reg_set_reg_ne. congruence.
    + intros Hpc Hinstr.
      rewrite (step_fetch s instr (set_reg R_PC (reg s R_PC + 1) s)).
      * rewrite execute_unknown_trap by assumption.
        rewrite reg_set_reg_eq. f_equal.
        unfold set_reg, with_regs, arr_set. simpl.
        now rewrite wrap16_idemp.
      * rewrite fetch_plain by assumption. now rewrite Hinstr.
Qed.

Lemma C3_unhandled_instructions_witness :
  (execute 0xD000 (at_pc_start 0xD000 0) = Running (at_pc_start 0xD000 0)
   /\ step (at_pc_start 0xD000 0)
      = Running (set_reg R_PC (reg (at_pc_start 0xD000 0) R_PC + 1)
                   (at_pc_start 0xD000 0)))
  /\ ((exists s',
        execute 0xF0FF (at_pc_start 0xF0FF 0) = Running s'
        /\ reg s' R_R7 = wrap16 (reg (at_pc_start 0xF0FF 0) R_PC)
        /\ (forall r, r <> R_R7 -> reg s' r = reg (at_pc_start 0xF0FF 0) r)
        /\ memory s' = memory (at_pc_start 0xF0FF 0)
        /\ io s' = io (at_pc_start 0xF0FF 0))
      /\ step (at_pc_start 0xF0FF 0)
         = Running (set_reg R_R7 (reg (at_pc_start 0xF0FF 0) R_PC + 1)
                      (set_reg R_PC (reg (at_pc_start 0xF0FF 0) R_PC + 1)
                         (at_pc_start 0xF0FF 0)))).
Proof.
  split.
  - destruct (proj1 (C3_unhandled_instructions (at_pc_start 0xD000 0) 0xD000))
      as [He Hs]; [left; reflexivity|].
    split; [exact He|]. apply Hs; [vm_compute; discriminate | reflexivity].
  - destruct (proj2 (C3_unhandled_instructions (at_pc_start 0xF0FF 0) 0xF0FF))
      as [He Hs]; [reflexivity | reflexivity |].
    split; [exact He|]. apply Hs; [vm_compute; discriminate | reflexivity].
Defined.

(** C3 as stated fails for the TRAP half: TRAP 0xFF, fetched at 0x3000 with
    R7 = 0, leaves R7 = 0x3001. *)
Lemma C3_unknown_trap_counterexample :
  Z.shiftr 0xF0FF 12 = OP_TRAP
  /\ known_trap (Z.land 0xF0FF 0xFF) = false
  /\ reg (at_pc_start 0xF0FF 0) R_R7 = 0
  /\ exists s',
       step (at_pc_start 0xF0FF 0) = Running s'
       /\ reg s' R_R7 = 0x3001
       /\ reg s' R_R7 <> reg (at_pc_start 0xF0FF 0) R_R7.
Proof.
  repeat split. eexists. split; [reflexivity|].
  split; [reflexivity | vm_compute; discriminate].
Qed.

(** ** Condition flags along a run *)

Lemma flag_dest_inv instr dr :
  flag_dest instr = Some dr ->
  (dr = Z.land (Z.shiftr instr 9) 0x7
   /\ (Z.shiftr instr 12 = OP_ADD \/ Z.shiftr instr 12 = OP_AND
       \/ Z.shiftr instr 12 = OP_NOT \/ Z.shiftr instr 12 = OP_LD
       \/ Z.shiftr instr 12 = OP_LDI \/ Z.shiftr instr 12 = OP_LDR
       \/ Z.shiftr instr 12 = OP_LEA))
  \/ (dr = R_R0 /\ Z.shiftr instr 12 = OP_TRAP
      /\ (Z.land instr 0xFF = TRAP_GETC \/ Z.land instr 0xFF = TRAP_IN)).
Proof.
  unfold flag_dest. intros H.
  destruct (_ || _) eqn:E in H.
  - left. inversion H. split; [reflexivity|].
    repeat (apply orb_prop in E; destruct E as [E|E]);
      apply Z.eqb_eq in E; tauto.
  - destruct (_ && _) eqn:E' in H; [|discriminate].
    right. inversion H. apply andb_prop in E'. destruct E' as [Ht Hv].
    apply Z.eqb_eq in Ht. apply orb_prop in Hv.
    repeat split; [assumption|].
    destruct Hv as [Hv|Hv]; apply Z.eqb_eq in Hv; tauto.
Qed.

(** Every flag-updating instruction ends in [regs[dr] = v; update_flags(dr)]. *)
Lemma execute_flag_dest instr dr s :
  flag_dest instr = Some dr ->
  exists v s0,
    execute instr s = Running (update_flags dr (set_reg dr v s0))
    /\ dr <> R_COND.
Proof.
  intros H. apply flag_dest_inv in H.
  destruct H as [[-> Hop] | (-> & Hop & Hv)].
  - assert (Hdr : Z.land (Z.shiftr instr 9) 0x7 <> R_COND)
      by apply field_not_special.
    destruct Hop as [Hop|[Hop|[Hop|[Hop|[Hop|[Hop|Hop]]]]]];
      enter_case Hop; cbv zeta;
      repeat match goal with
      | |- context [if ?b then _ else _] => destruct b
      | |- context [let '(_, _) := ?p in _] => destruct p
      end;
      eexists _, _; (split; [reflexivity | exact Hdr]).
  - destruct Hv as [Hv|Hv]; enter_case Hop; cbv zeta; rewrite Hv; pick_case;
      repeat match goal with
      | |- context [let '(_, _) := ?p in _] => destruct p
      end;
      eexists _, _; (split; [reflexivity | vm_compute; discriminate]).
Qed.

Lemma reg_mem_write a v s r : reg (mem_write a v s) r = reg s r.
Proof. reflexivity. Qed.

Lemma reg_with_io h s r : reg (with_io h s) r = reg s r.
Proof. reflexivity. Qed.

Lemma reg_with_c_local c s r : reg (with_c_local c s) r = reg s r.
Proof. reflexivity. Qed.

Ltac not_cond :=
  first [ apply field_not_special | vm_compute; discriminate ].

(** Reduce [reg s' R_COND] to the COND of the state the case started from. *)
Ltac trace_cond :=
  repeat first
    [ rewrite reg_set_reg_ne by not_cond
    | rewrite reg_mem_write
    | rewrite reg_with_io
    | match goal with
      | H : mem_read _ ?s = (_, ?s') |- context [reg ?s' R_COND] =>
          rewrite (mem_read_reg _ _ _ _ R_COND H)
      end ].

Lemma execute_cond_ok instr s :
  cond_ok s -> outcome_holds cond_ok (execute instr s).
Proof.
  intros Hs. unfold execute.
  repeat case_match; unfold outcome_holds, cond_ok; try exact I;
    first [ rewrite reg_update_flags_cond; apply flag_word_cases
          | trace_cond; exact Hs ].
Qed.

Lemma initial_cond s : initial s -> reg s R_COND = FL_ZRO.
Proof.
  unfold initial, reg. intros ->.
  rewrite arr_get_set_ne by (vm_compute; discriminate).
  now rewrite arr_get_set_eq.
Qed.

Lemma step_cond_ok s : cond_ok s -> outcome_holds cond_ok (step s).
Proof.
  intros Hs. unfold step. destruct (fetch s) as [instr s1] eqn:Hf.
  apply execute_cond_ok. unfold cond_ok.
  rewrite (fetch_reg_other _ _ _ R_COND Hf) by (vm_compute; discriminate).
  exact Hs.
Qed.

Lemma reachable_cond_ok s : reachable s -> cond_ok s.
Proof.
  induction 1 as [s Hi | s s' _ IH Hstep | s s' _ IH Hstep | s c _ IH
                 | s n _ IH | s _ IH].
  - right; left. now apply initial_cond.
  - pose proof (step_cond_ok s IH) as H. now rewrite Hstep in H.
  - pose proof (step_cond_ok s IH) as H. now rewrite Hstep in H.
  - exact IH.
  - exact IH.
  - exact IH.
Qed.

Lemma write_then_flags_word r v s :
  r <> R_COND ->
  let s' := update_flags r (set_reg r v s) in
  is_u16 (reg s' r) /\ reg s' R_COND = flag_word (reg s' r).
Proof.
  intros Hr s'. subst s'.
  rewrite reg_update_flags_other by assumption.
  rewrite reg_update_flags_cond, reg_set_reg_eq.
  split; [apply wrap16_range | reflexivity].
Qed.

(** C7: in every state reachable from the initial one COND is POS, ZRO or
    NEG; and a pass that runs a flag-updating instruction leaves in COND the
    flag that matches the sign of the destination register, read as a
    16-bit two's-complement number: ZRO exactly when it is zero, NEG exactly
    when bit 15 is set, POS otherwise. *)
Theorem C7_cond_flags (s : state) (Hs : reachable s) :
  (reg s R_COND = FL_POS \/ reg s R_COND = FL_ZRO \/ reg s R_COND = FL_NEG)
  /\ (forall instr s1 dr,
        fetch s = (instr, s1) -> flag_dest instr = Some dr ->
        exists s',
          step s = Running s'
          /\ reachable s'
          /\ reg s' R_COND = flag_of_sign (signed16 (reg s' dr))
          /\ (reg s' R_COND = FL_ZRO <-> reg s' dr = 0)
          /\ (reg s' R_COND = FL_NEG <-> Z.testbit (reg s' dr) 15 = true)
          /\ (reg s' R_COND = FL_POS <->
                reg s' dr <> 0 /\ Z.testbit (reg s' dr) 15 = false)).
Proof.
  split; [now apply reachable_cond_ok|].
  intros instr s1 dr Hf Hd.
  destruct (execute_flag_dest instr dr s1 Hd) as (v & s0 & He & Hdr).
  assert (Hstep : step s = Running (update_flags dr (set_reg dr v s0)))
    by now rewrite (step_fetch _ _ _ Hf).
  eexists. split; [exact Hstep|]. split; [now apply (reach_running s)|].
  destruct (write_then_flags_word dr v s0 Hdr) as [Hu Hw].
  split; [now apply write_then_flags|].
  rewrite Hw. now apply flag_word_bits.
Qed.

Lemma C7_cond_flags_witness :
  (reg (start_machine 0x127F) R_COND = FL_POS
   \/ reg (start_machine 0x127F) R_COND = FL_ZRO
   \/ reg (start_machine 0x127F) R_COND = FL_NEG)
  /\ exists s',
       step (start_machine 0x127F) = Running s'
       /\ reachable s'
       /\ reg s' R_COND = flag_of_sign (signed16 (reg s' R_R1))
       /\ (reg s' R_COND = FL_ZRO <-> reg s' R_R1 = 0)
       /\ (reg s' R_COND = FL_NEG <-> Z.testbit (reg s' R_R1) 15 = true)
       /\ (reg s' R_COND = FL_POS <->
             reg s' R_R1 <> 0 /\ Z.testbit (reg s' R_R1) 15 = false).
Proof.
  assert (Hr : reachable (start_machine 0x127F))
    by (apply reach_initial; reflexivity).
  split.
  - exact (proj1 (C7_cond_flags _ Hr)).
  - apply (proj2 (C7_cond_flags _ Hr) 0x127F
             (set_reg R_PC (PC_START + 1) (start_machine 0x127F)) R_R1);
      reflexivity.
Defined.

(** ** TRAP IN *)

Lemma execute_trap_in s :
  execute trap_in_instr s =
    let s7 := set_reg R_R7 (reg s R_PC) s in
    let h := put_bytes in_prompt (io s7) in
    Running
      (update_flags R_R0
         (set_reg R_R0 (c_local s7)
            (with_io (putc (fst (getchar h)) (snd (getchar h))) s7))).
Proof.
  assert (Hop : Z.shiftr trap_in_instr 12 = OP_TRAP) by reflexivity.
  enter_case Hop. cbv zeta.
  destruct (getchar _) as [ch h]. reflexivity.
Qed.

(** Whatever byte arrives, R0 receives the low 16 bits of the pointer
    variable and the flags follow that value; the byte read only reaches
    standard output. *)
Lemma trap_in_ignores_key s key rest :
  stdin (io s) = key :: rest ->
  exists s',
    execute trap_in_instr s = Running s'
    /\ reg s' R_R0 = wrap16 (c_local s)
    /\ reg s' R_COND = flag_of_sign (signed16 (wrap16 (c_local s)))
    /\ stdin (io s') = rest
    /\ stdout (io s') = stdout (io s) ++ in_prompt ++ [key mod 256].
Proof.
  intros Hin. eexists. split; [apply execute_trap_in|]. cbv zeta.
  destruct (write_then_flags R_R0 (c_local (set_reg R_R7 (reg s R_PC) s))
              (with_io
                 (putc (fst (getchar (put_bytes in_prompt (io (set_reg R_R7 (reg s R_PC) s)))))
                    (snd (getchar (put_bytes in_prompt (io (set_reg R_R7 (reg s R_PC) s))))))
                 (set_reg R_R7 (reg s R_PC) s)))
    as [Hv Hc]; [vm_compute; discriminate|].
  split; [exact Hv|]. split; [rewrite Hc, Hv; reflexivity|].
  rewrite update_flags_set. cbn [io with_io].
  set (h := put_bytes in_prompt (io (set_reg R_R7 (reg s R_PC) s))).
  assert (Hh : stdin h = key :: rest) by exact Hin.
  destruct (getchar_next h key rest Hh) as [Hk Hr].
  destruct (getchar_output h) as [Ho _].
  split; [exact Hr|]. rewrite Hk.
  change (stdout (snd (getchar h)) ++ [key mod 256] =
          stdout (io s) ++ in_prompt ++ [key mod 256]).
  rewrite Ho. subst h.
  change (stdout (put_bytes in_prompt (io (set_reg R_R7 (reg s R_PC) s))))
    with (stdout (io s) ++ in_prompt).
  now rewrite <- app_assoc.
Qed.

(** So no value of the pointer variable makes TRAP IN right for both [A]
    and [B]: the two runs leave the same R0. *)
Lemma trap_in_same_r0 s h rest :
  exists sa sb,
    execute trap_in_instr (with_io (with_input [] (0x41 :: rest) [] false h) s)
      = Running sa
    /\ execute trap_in_instr (with_io (with_input [] (0x42 :: rest) [] false h) s)
      = Running sb
    /\ reg sa R_R0 = reg sb R_R0.
Proof.
  assert (Hin : forall k, stdin (with_input [] (k :: rest) [] false h) = k :: rest)
    by (intros k; unfold stdin; cbn; now rewrite app_nil_r).
  destruct (trap_in_ignores_key
              (with_io (with_input [] (0x41 :: rest) [] false h) s) 0x41 rest
              (Hin _))
    as (sa & Ha & Hra & _).
  destruct (trap_in_ignores_key
              (with_io (with_input [] (0x42 :: rest) [] false h) s) 0x42 rest
              (Hin _))
    as (sb & Hb & Hrb & _).
  exists sa, sb. split; [exact Ha|]. split; [exact Hb|].
  rewrite Hra, Hrb. reflexivity.
Qed.

(** C1 on the code: with [A] typed at the prompt, TRAP IN prints the prompt
    and echoes [A], but R0 ends up with the pointer variable's low 16 bits
    (0 here) and COND = ZRO, not with 0x41 and COND = POS. *)
Theorem C1_trap_in_failing_input :
  stdin (io typed_A_machine) = [0x41]
  /\ exists s',
       execute trap_in_instr typed_A_machine = Running s'
       /\ stdout (io s') = in_prompt ++ [0x41]
       /\ reg s' R_R0 = 0
       /\ reg s' R_R0 <> 0x41
       /\ reg s' R_COND = FL_ZRO.
Proof.
  split; [reflexivity|].
  eexists. split; [reflexivity|].
  repeat split. vm_compute. discriminate.
Qed.

(** ** Image loader *)

Lemma host_u16_be w :
  is_u16 w -> host_u16 (Z.shiftr w 8) (Z.land w 0xFF) = swap_16 w.
Proof.
  intros Hw. unfold host_u16. rewrite Z.lor_comm. symmetry.
  now apply swap_16_masked.
Qed.

Lemma swap_16_fixes_wrap x : wrap16 (swap_16 x) = swap_16 x.
Proof. apply wrap16_small, swap_16_range. Qed.

(** The second pass swaps exactly the cells [p .. p+read-1]. *)
Lemma swap_words_get read : forall p m a,
  arr_get (swap_words read p m) a =
    if (p <=? a) && (a <? p + Z.of_nat read)
    then swap_16 (arr_get m a)
    else arr_get m a.
Proof.
  induction read as [|read IH]; intros p m a.
  - cbn [swap_words]. cmp_split; reflexivity.
  - cbn [swap_words]. rewrite IH.
    destruct (Z.eq_dec a p) as [->|Hne].
    + rewrite arr_get_set_eq, swap_16_fixes_wrap. cmp_split; reflexivity.
    + rewrite arr_get_set_ne by congruence. cmp_split; reflexivity.
Qed.

(** The first pass stores the payload words, byte-swapped, at [p], [p+1],
    ... and counts how many fit under [max_read]. *)
Lemma fread_words_spec ws : forall max_read p m,
  0 <= max_read ->
  let '(read, m') := fread_words (concat (map be_bytes ws)) max_read p m in
  Z.of_nat read = Z.min (Z.of_nat (length ws)) max_read
  /\ (forall (i : nat) w, ws !! i = Some w -> Z.of_nat i < max_read ->
        arr_get m' (p + Z.of_nat i)
        = wrap16 (host_u16 (Z.shiftr w 8) (Z.land w 0xFF)))
  /\ (forall a, ~ (p <= a < p + Z.of_nat read) -> arr_get m' a = arr_get m a).
Proof.
  induction ws as [|w ws IH]; intros max_read p m Hmax.
  - simpl. split; [lia|]. split; [intros i w' H; discriminate | reflexivity].
  - cbn [map concat be_bytes app fread_words].
    destruct (Z.ltb_spec 0 max_read) as [Hpos|Hzero].
    + specialize (IH (max_read - 1) (p + 1)
                    (arr_set m p (host_u16 (Z.shiftr w 8) (Z.land w 0xFF)))
                    ltac:(lia)).
      destruct (fread_words _ _ _ _) as [read m'].
      destruct IH as (Hn & Hin & Hout).
      split; [cbn [length]; lia|]. split.
      * intros [|i] w' Hi Hlt.
        -- inversion Hi; subst w'. replace (p + Z.of_nat 0) with p by lia.
           rewrite Hout by lia. apply arr_get_set_eq.
        -- replace (p + Z.of_nat (S i)) with (p + 1 + Z.of_nat i) by lia.
           apply Hin; [exact Hi | lia].
      * intros a Ha. rewrite Hout by lia.
        apply arr_get_set_ne. lia.
    + split; [cbn [length]; lia|]. split; [intros; lia | reflexivity].
Qed.

(** For an origin of at least 1 the loader does what is asked of it: the
    payload lands at [O], [O+1], ... up to the end of memory and no other
    cell changes. *)
Lemma read_image_file_loads O ws s :
  1 <= O <= 0xFFFF ->
  Forall is_u16 ws ->
  exists s',
    read_image_file (image_bytes O ws) s = Some s'
    /\ (forall (i : nat) w, ws !! i = Some w -> Z.of_nat i < 65536 - O ->
          mem s' (O + Z.of_nat i) = w)
    /\ (forall a, ~ (O <= a < O + Z.min (Z.of_nat (length ws)) (65536 - O)) ->
          mem s' a = mem s a)
    /\ regs s' = regs s /\ io s' = io s.
Proof.
  intros HO Hws.
  assert (HOu : is_u16 O) by (unfold is_u16; lia).
  unfold read_image_file, image_bytes. cbn [be_bytes app].
  rewrite (host_u16_be O HOu), (swap_16_involutive O HOu).
  assert (Hmax : wrap16 (MEMORY_MAX - O) = 65536 - O)
    by (apply wrap16_small; unfold is_u16, MEMORY_MAX; simpl; lia).
  rewrite Hmax.
  pose proof (fread_words_spec ws (65536 - O) O (memory s) ltac:(lia)) as Hf.
  destruct (fread_words _ _ _ _) as [read m'].
  destruct Hf as (Hn & Hin & Hout).
  eexists. split; [reflexivity|]. split; [|split; [|split; reflexivity]].
  - intros i w Hi Hlt. unfold mem. cbn [memory with_memory].
    rewrite swap_words_get.
    assert (Z.of_nat i < Z.of_nat (length ws))
      by (apply inj_lt; now apply (lookup_lt_Some ws i w)).
    destruct (Z.leb_spec O (O + Z.of_nat i)); [|lia].
    destruct (Z.ltb_spec (O + Z.of_nat i) (O + Z.of_nat read)); [|lia].
    cbn [andb]. rewrite (Hin i w Hi Hlt).
    assert (Hw : is_u16 w)
      by (eapply Forall_lookup_1; [exact Hws | exact Hi]).
    rewrite (host_u16_be w Hw), swap_16_fixes_wrap.
    now apply swap_16_involutive.
  - intros a Ha. unfold mem. cbn [memory with_memory].
    rewrite swap_words_get.
    destruct (Z.leb_spec O a), (Z.ltb_spec a (O + Z.of_nat read));
      cbn [andb]; try (apply Hout; lia). lia.
Qed.

(** C2 on the code: an image with origin 0 and payload word 0x1234 is read
    without storing anything, because [max_read], a [uint16_t], receives
    65536 - 0 and holds 0; memory[0] stays 0 where the payload word was to
    go.  The same payload at origin 0x3000 is loaded. *)
Theorem C2_origin_zero_failing_input :
  image_at_zero = [0; 0; 0x12; 0x34]
  /\ wrap16 (MEMORY_MAX - 0) = 0
  /\ (exists s',
        read_image_file image_at_zero idle_machine = Some s'
        /\ mem s' 0 = 0
        /\ mem s' 0 <> 0x1234
        /\ memory s' = memory idle_machine)
  /\ (exists s',
        read_image_file image_at_3000 idle_machine = Some s'
        /\ mem s' 0x3000 = 0x1234).
Proof.
  split; [reflexivity|]. split; [reflexivity|]. split.
  - eexists. split; [reflexivity|].
    split; [reflexivity|]. split; [vm_compute; discriminate | reflexivity].
  - eexists. split; reflexivity.
Qed.

Lemma fread_words_none file p m : fread_words file 0 p m = (O, m).
Proof. destruct file as [|b0 [|b1 rest]]; reflexivity. Qed.

(** With origin 0 no payload word is stored, whatever the payload. *)
Lemma read_image_file_origin_zero ws s :
  exists s',
    read_image_file (image_bytes 0 ws) s = Some s' /\ memory s' = memory s.
Proof.
  unfold read_image_file, image_bytes. cbn [be_bytes app].
  change (swap_16 (host_u16 (Z.shiftr 0 8) (Z.land 0 0xFF))) with 0.
  change (wrap16 (MEMORY_MAX - 0)) with 0.
  rewrite fread_words_none. eexists. split; reflexivity.
Qed.

(** ** Terminal settings *)

Lemma term_set_reg r v s : term_of (set_reg r v s) = term_of s.
Proof. reflexivity. Qed.

Lemma term_set_mem a v s : term_of (set_mem a v s) = term_of s.
Proof. reflexivity. Qed.

Lemma term_update_flags r s : term_of (update_flags r s) = term_of s.
Proof. now rewrite update_flags_set. Qed.

Lemma getchar_tty h : tty (snd (getchar h)) = tty h.
Proof. exact (proj2 (getchar_output h)). Qed.

Lemma mem_read_term addr s : term_of (snd (mem_read addr s)) = term_of s.
Proof.
  unfold mem_read. cbn [snd].
  destruct (wrap16 addr =? MR_KBSR); [|reflexivity].
  destruct (negb (check_key (io s) =? 0)); [|reflexivity].
  pose proof (getchar_tty (io (set_mem MR_KBSR (Z.shiftl 1 15) s))) as Hg.
  destruct (getchar _) as [ch h]. unfold term_of. cbn in *. now rewrite Hg.
Qed.

Lemma puts_loop_tty room : forall c m h h',
  puts_loop room c m h = Some h' -> tty h' = tty h.
Proof.
  induction room as [|room IH]; intros c m h h' H; [discriminate|].
  cbn [puts_loop] in H. destruct (negb (arr_get m c =? 0)).
  - now rewrite (IH _ _ _ _ H).
  - now inversion H.
Qed.

Lemma putsp_loop_tty room : forall sp m h h',
  putsp_loop room sp m h = Some h' -> tty h' = tty h.
Proof.
  induction room as [|room IH]; intros sp m h h' H; [discriminate|].
  cbn [putsp_loop] in H. destruct (negb (arr_get m sp =? 0)).
  - cbv zeta in H. rewrite (IH _ _ _ _ H).
    destruct (negb _); reflexivity.
  - now inversion H.
Qed.

Lemma getchar_tty_eq h0 ch h : getchar h0 = (ch, h) -> tty h = tty h0.
Proof. intros H. rewrite <- (getchar_tty h0). now rewrite H. Qed.

Lemma mem_read_term_eq addr s v s' :
  mem_read addr s = (v, s') -> term_of s' = term_of s.
Proof. intros H. rewrite <- (mem_read_term addr s). now rewrite H. Qed.

Lemma term_with_io h s : tty h = tty (io s) -> term_of (with_io h s) = term_of s.
Proof. unfold term_of. cbn. now intros ->. Qed.

Lemma term_mem_write a v s : term_of (mem_write a v s) = term_of s.
Proof. reflexivity. Qed.

Lemma tty_putc ch h : tty (putc ch h) = tty h.
Proof. reflexivity. Qed.

Lemma tty_put_bytes bs h : tty (put_bytes bs h) = tty h.
Proof. reflexivity. Qed.

(** Reduce [term_of s'] to the terminal side of the state the case started
    from. *)
Ltac trace_term :=
  repeat first
    [ rewrite term_update_flags
    | rewrite tty_putc
    | rewrite tty_put_bytes
    | rewrite term_set_reg
    | rewrite term_mem_write
    | rewrite term_with_io
    | match goal with
      | H : mem_read _ ?s = (_, ?s') |- context [term_of ?s'] =>
          rewrite (mem_read_term_eq _ _ _ _ H)
      | H : getchar ?h0 = (_, ?h) |- context [tty ?h] =>
          rewrite (getchar_tty_eq _ _ _ H)
      | H : puts_loop _ _ _ ?h0 = Some ?h |- context [tty ?h] =>
          rewrite (puts_loop_tty _ _ _ _ _ H)
      | H : putsp_loop _ _ _ ?h0 = Some ?h |- context [tty ?h] =>
          rewrite (putsp_loop_tty _ _ _ _ _ H)
      end ];
  try reflexivity.

(** No instruction touches the terminal settings or [original_tio]. *)
Lemma execute_term instr s :
  outcome_holds (fun s' => term_of s' = term_of s) (execute instr s).
Proof.
  unfold execute.
  repeat case_match; unfold outcome_holds; try exact I; trace_term.
Qed.

Lemma fetch_term s : term_of (snd (fetch s)) = term_of s.
Proof. unfold fetch. now rewrite mem_read_term. Qed.

Lemma step_term s : outcome_holds (fun s' => term_of s' = term_of s) (step s).
Proof.
  unfold step. pose proof (fetch_term s) as Hf.
  destruct (fetch s) as [instr s1]. cbn [snd] in Hf.
  pose proof (execute_term instr s1) as He.
  destruct (execute instr s1); cbn [outcome_holds] in *; congruence.
Qed.

Lemma run_term fuel : forall s,
  outcome_holds (fun s' => term_of s' = term_of s) (run fuel s).
Proof.
  induction fuel as [|fuel IH]; intros s; cbn [run]; [reflexivity|].
  pose proof (step_term s) as Hs.
  destruct (step s) as [s1| |]; cbn [outcome_holds] in *; try assumption.
  specialize (IH s1).
  destruct (run fuel s1); cbn [outcome_holds] in *; congruence.
Qed.

(** ** Start and stop of the program *)

Lemma read_image_file_term file s s' :
  read_image_file file s = Some s' -> term_of s' = term_of s.
Proof.
  unfold read_image_file. destruct file as [|b0 [|b1 rest]]; try discriminate.
  cbv zeta. destruct (fread_words _ _ _ _) as [read m].
  intros H. now inversion H.
Qed.

Lemma read_image_term fs path s ok s' :
  read_image fs path s = Some (ok, s') -> term_of s' = term_of s.
Proof.
  unfold read_image. destruct (fs path) as [file|].
  - destruct (read_image_file file s) as [s1|] eqn:Hr; [|discriminate].
    intros H. inversion H; subst. now apply (read_image_file_term file).
  - intros H. now inversion H.
Qed.

Lemma load_images_term fs paths : forall s r,
  load_images fs paths s = Some r ->
  match r with
  | inl (_, s') | inr s' => term_of s' = term_of s
  end.
Proof.
  induction paths as [|path paths IH]; intros s r H; cbn [load_images] in H.
  - now inversion H.
  - destruct (read_image fs path s) as [[ok s1]|] eqn:Hr; [|discriminate].
    pose proof (read_image_term _ _ _ _ _ Hr) as H1.
    destruct (ok =? 0).
    + inversion H. exact H1.
    + specialize (IH s1 r H). destruct r as [[p s']|s']; congruence.
Qed.

(** What [disable_input_buffering] leaves: the terminal with ICANON and ECHO
    cleared, the settings it found saved in [original_tio]. *)
Lemma disable_input_buffering_term ICANON ECHO s :
  term_of (disable_input_buffering ICANON ECHO s)
  = (Termios (c_iflag (tty (io s))) (c_oflag (tty (io s))) (c_cflag (tty (io s)))
       (Z.land (c_lflag (tty (io s))) (Z.land (Z.lnot ICANON) (Z.lnot ECHO))),
     tty (io s)).
Proof. reflexivity. Qed.

(** However [main] ends, it ends with the terminal as
    [disable_input_buffering] set it: no path through [main] calls
    [restore_input_buffering]. *)
Lemma main_never_restores ICANON ECHO fs argv fuel s status s' :
  main ICANON ECHO fs argv fuel s = Exit status s' ->
  term_of s' = term_of (disable_input_buffering ICANON ECHO s).
Proof.
  unfold main. cbv zeta.
  destruct (Z.of_nat (length argv) <? 2).
  - intros H. now inversion H.
  - destruct (load_images _ _ _) as [[[path s1]|s1]|] eqn:Hl; try discriminate.
    + pose proof (load_images_term _ _ _ _ Hl) as H1. cbn in H1.
      intros H. inversion H; subst. exact H1.
    + pose proof (load_images_term _ _ _ _ Hl) as H1. cbn in H1.
      pose proof (run_term fuel (set_reg R_PC PC_START (set_reg R_COND FL_ZRO s1)))
        as Hr.
      destruct (run fuel _) as [s2|s2|]; try discriminate.
      intros H. inversion H; subst. cbn [outcome_holds] in Hr.
      rewrite Hr, !term_set_reg. exact H1.
Qed.

(** The SIGINT handler puts back what [original_tio] holds and exits with
    status 254. *)
Lemma handle_interrupt_restores s :
  exists s',
    handle_interrupt s = Exit (-2) s'
    /\ tty (io s') = original_tio s
    /\ exit_status (-2) = 254.
Proof. eexists. repeat split. Qed.

(** C4 on the code: started on a terminal in canonical mode with echo, an
    image that halts at once makes [main] print HALT and return with status
    0 while the terminal still has ICANON and ECHO cleared; the settings
    saved at startup are not put back.  SIGINT arriving in the same state
    would have put them back. *)
Theorem C4_halt_failing_input :
  exists s',
    main linux_ICANON linux_ECHO halt_fs halt_argv 1 (boot 0 cooked_host)
      = Exit 0 s'
    /\ stdout (io s') = bytes_of_string "HALT" ++ [10]
    /\ original_tio s' = cooked_tty
    /\ c_lflag (tty (io s')) = 0x8A31
    /\ tty (io s') <> original_tio s'
    /\ exists s'', handle_interrupt s' = Exit (-2) s'' /\ tty (io s'') = cooked_tty.
Proof.
  eexists. split; [reflexivity|].
  repeat split.
  - vm_compute. discriminate.
  - eexists. split; reflexivity.
Qed.


(** * Further properties of the code *)

(** ** [sign_extend] as a signed value *)

Lemma field_top_bit x n :
  1 <= n -> 0 <= x < 2 ^ n ->
  Z.testbit x (n - 1) = negb (x <? 2 ^ (n - 1)).
Proof.
  intros Hn Hx.
  assert (Hp : 2 ^ n = 2 * 2 ^ (n - 1)).
  { replace n with (Z.succ (n - 1)) at 1 by lia. apply Z.pow_succ_r. lia. }
  assert (Hpos : 0 < 2 ^ (n - 1)) by (apply Z.pow_pos_nonneg; lia).
  rewrite Z.testbit_eqb by lia.
  destruct (Z.ltb_spec x (2 ^ (n - 1))) as [Hlt|Hge]; cbn [negb].
  - rewrite Z.div_small by lia. reflexivity.
  - replace (x / 2 ^ (n - 1)) with 1; [reflexivity|].
    apply Z.div_unique with (r := x - 2 ^ (n - 1)); lia.
Qed.

Lemma field_mask_disjoint x n :
  1 <= n -> 0 <= x < 2 ^ n -> Z.land x (Z.shiftl 0xFFFF n) = 0.
Proof.
  intros Hn Hx. apply Z.bits_inj'. intros i Hi.
  rewrite Z.land_spec, Z.bits_0, testbit_shiftl_total.
  destruct (Z.ltb_spec i n) as [Hlt|Hge].
  - rewrite (Z.testbit_neg_r 0xFFFF (i - n)) by lia.
    now rewrite !andb_false_r.
  - replace (Z.testbit x i) with false; [reflexivity|].
    symmetry. replace x with (x mod 2 ^ n) by (apply Z.mod_small; lia).
    apply Z.mod_pow2_bits_high. lia.
Qed.

(** On an [n]-bit field [sign_extend] yields the 16-bit pattern of the
    field's signed value. *)
Lemma sign_extend_value x n :
  1 <= n <= 16 -> 0 <= x < 2 ^ n ->
  sign_extend x n = wrap16 (signed_field x n)
  /\ signed16 (sign_extend x n) = signed_field x n.
Proof.
  intros Hn Hx.
  assert (Hp : 2 ^ n = 2 * 2 ^ (n - 1)).
  { replace n with (Z.succ (n - 1)) at 1 by lia. apply Z.pow_succ_r. lia. }
  assert (Hpos : 0 < 2 ^ (n - 1)) by (apply Z.pow_pos_nonneg; lia).
  assert (Hle : 2 ^ n <= 65536).
  { change 65536 with (2 ^ 16). apply Z.pow_le_mono_r; lia. }
  rewrite sign_extend_test by lia.
  rewrite field_top_bit by lia. unfold signed_field.
  destruct (Z.ltb_spec x (2 ^ (n - 1))) as [Hlt|Hge]; cbn [negb].
  - rewrite wrap16_small by (unfold is_u16; lia).
    split; [reflexivity|]. unfold signed16.
    destruct (Z.ltb_spec x 32768); [reflexivity | lia].
  - rewrite <- Z.add_nocarry_lor by (apply field_mask_disjoint; lia).
    rewrite Z.shiftl_mul_pow2 by lia.
    assert (Hw : wrap16 (x + 0xFFFF * 2 ^ n) = x - 2 ^ n + 65536).
    { unfold wrap16. symmetry.
      apply Z.mod_unique with (q := 2 ^ n - 1); lia. }
    rewrite Hw. split.
    + unfold wrap16. apply Z.mod_unique with (q := -1); lia.
    + unfold signed16.
      destruct (Z.ltb_spec (x - 2 ^ n + 65536) 32768); lia.
Qed.

(** X1: on an [n]-bit field (1 <= n <= 16) [sign_extend] returns the 16-bit
    two's-complement pattern of the field's signed value, which lies in
    [-2^(n-1), 2^(n-1)). *)
Theorem X1_sign_extend_signed (x n : Z)
    (Hn : 1 <= n <= 16) (Hx : 0 <= x < 2 ^ n) :
  signed16 (sign_extend x n) = signed_field x n
  /\ - 2 ^ (n - 1) <= signed_field x n < 2 ^ (n - 1)
  /\ is_u16 (sign_extend x n).
Proof.
  destruct (sign_extend_value x n Hn Hx) as [Hv Hs].
  split; [exact Hs|]. split.
  - assert (Hp : 2 ^ n = 2 * 2 ^ (n - 1)).
    { replace n with (Z.succ (n - 1)) at 1 by lia. apply Z.pow_succ_r. lia. }
    unfold signed_field. destruct (Z.ltb_spec x (2 ^ (n - 1))); lia.
  - rewrite Hv. apply wrap16_range.
Qed.

Lemma X1_sign_extend_signed_witness :
  signed16 (sign_extend 0x1F 5) = signed_field 0x1F 5
  /\ - 2 ^ (5 - 1) <= signed_field 0x1F 5 < 2 ^ (5 - 1)
  /\ is_u16 (sign_extend 0x1F 5).
Proof. apply (X1_sign_extend_signed 0x1F 5); simpl; lia. Defined.

(** ** Arithmetic and logic instructions *)

Lemma wrap16_add_r a b : wrap16 (a + wrap16 b) = wrap16 (a + b).
Proof. unfold wrap16. now rewrite Zplus_mod_idemp_r. Qed.

Lemma wrap16_add_l a b : wrap16 (wrap16 a + b) = wrap16 (a + b).
Proof. unfold wrap16. now rewrite Zplus_mod_idemp_l. Qed.

Lemma land_mask_range x k : 0 <= k -> 0 <= Z.land x (Z.ones k) < 2 ^ k.
Proof.
  intros Hk. rewrite Z.land_ones by lia.
  apply Z.mod_pos_bound. apply Z.pow_pos_nonneg; lia.
Qed.

(** X2: ADD in immediate mode adds the signed value of the 5-bit field, a
    number from -16 to 15, to R[SR1] modulo 2^16. *)
Theorem X2_add_immediate (instr : Z) (s : state)
    (Hop : Z.shiftr instr 12 = OP_ADD)
    (Himm : Z.land (Z.shiftr instr 5) 0x1 = 1) :
  exists s',
    execute instr s = Running s'
    /\ reg s' (Z.land (Z.shiftr instr 9) 0x7)
       = wrap16 (reg s (Z.land (Z.shiftr instr 6) 0x7)
                 + signed_field (Z.land instr 0x1F) 5)
    /\ -16 <= signed_field (Z.land instr 0x1F) 5 <= 15.
Proof.
  pose proof (land_mask_range instr 5 ltac:(lia)) as Hf.
  change (Z.ones 5) with 0x1F in Hf.
  destruct (sign_extend_value (Z.land instr 0x1F) 5 ltac:(lia) Hf) as [Hv _].
  eexists. split; [now apply execute_add|]. rewrite Himm. cbn [Z.eqb].
  split.
  - destruct (write_then_flags (Z.land (Z.shiftr instr 9) 0x7)
                (reg s (Z.land (Z.shiftr instr 6) 0x7)
                 + sign_extend (Z.land instr 0x1F) 5) s) as [Hr _];
      [apply field_not_special|].
    rewrite Hr, Hv. apply wrap16_add_r.
  - unfold signed_field. change (2 ^ (5 - 1)) with 16. change (2 ^ 5) with 32.
    change (2 ^ 5) with 32 in Hf.
    destruct (Z.ltb_spec (Z.land instr 0x1F) 16); lia.
Qed.

Lemma X2_add_immediate_witness :
  exists s',
    execute 0x127F (at_pc_start 0x127F 0) = Running s'
    /\ reg s' (Z.land (Z.shiftr 0x127F 9) 0x7)
       = wrap16 (reg (at_pc_start 0x127F 0) (Z.land (Z.shiftr 0x127F 6) 0x7)
                 + signed_field (Z.land 0x127F 0x1F) 5)
    /\ -16 <= signed_field (Z.land 0x127F 0x1F) 5 <= 15.
Proof. apply (X2_add_immediate 0x127F (at_pc_start 0x127F 0)); reflexivity. Defined.

Lemma land_le_l a b : 0 <= a -> 0 <= Z.land a b <= a.
Proof.
  intros Ha. split.
  - apply Z.land_nonneg. now left.
  - pose proof (Z.sub_land_same_l a b) as H.
    assert (0 <= Z.land a (Z.lnot b)) by (apply Z.land_nonneg; now left).
    lia.
Qed.

Lemma execute_and instr s :
  Z.shiftr instr 12 = OP_AND ->
  let r0 := Z.land (Z.shiftr instr 9) 0x7 in
  let r1 := Z.land (Z.shiftr instr 6) 0x7 in
  let operand :=
    if Z.land (Z.shiftr instr 5) 0x1 =? 0
    then reg s (Z.land instr 0x7)
    else sign_extend (Z.land instr 0x1F) 5 in
  execute instr s
  = Running (update_flags r0 (set_reg r0 (Z.land (reg s r1) operand) s)).
Proof.
  intros Hop. enter_case Hop. cbv zeta.
  destruct (Z.land (Z.shiftr instr 5) 1 =? 0); reflexivity.
Qed.

(** X3: AND stores the bitwise AND of R[SR1] and its second operand; on a
    16-bit R[SR1] nothing is cut off, the result never exceeds R[SR1], and
    with a zero operand (AND DR,SR1,#0) the register is cleared and COND is
    ZRO. *)
Theorem X3_and_masks (instr : Z) (s : state)
    (Hop : Z.shiftr instr 12 = OP_AND)
    (Hsrc : is_u16 (reg s (Z.land (Z.shiftr instr 6) 0x7))) :
  let operand :=
    if Z.land (Z.shiftr instr 5) 0x1 =? 0
    then reg s (Z.land instr 0x7)
    else sign_extend (Z.land instr 0x1F) 5 in
  exists s',
    execute instr s = Running s'
    /\ reg s' (Z.land (Z.shiftr instr 9) 0x7)
       = Z.land (reg s (Z.land (Z.shiftr instr 6) 0x7)) operand
    /\ reg s' (Z.land (Z.shiftr instr 9) 0x7)
       <= reg s (Z.land (Z.shiftr instr 6) 0x7)
    /\ (operand = 0 ->
        reg s' (Z.land (Z.shiftr instr 9) 0x7) = 0 /\ reg s' R_COND = FL_ZRO).
Proof.
  intros operand. eexists. split; [now apply execute_and|]. fold operand.
  destruct (write_then_flags (Z.land (Z.shiftr instr 9) 0x7)
              (Z.land (reg s (Z.land (Z.shiftr instr 6) 0x7)) operand) s)
    as [Hr Hc]; [apply field_not_special|].
  cbv zeta in Hr, Hc. unfold is_u16 in Hsrc.
  pose proof (land_le_l (reg s (Z.land (Z.shiftr instr 6) 0x7)) operand
                ltac:(lia)) as Hb.
  rewrite wrap16_small in Hr by (unfold is_u16; lia).
  split; [exact Hr|]. split; [rewrite Hr; lia|].
  intros H0. rewrite Hc, Hr, H0, Z.land_0_r. split; reflexivity.
Qed.

Lemma X3_and_masks_witness :
  (reg and_machine R_R0 = 0x1234 /\ reg and_machine R_COND = FL_POS
   /\ exists s',
        execute 0x5020 and_machine = Running s'
        /\ reg s' R_R0 = Z.land (reg and_machine R_R0) 0
        /\ reg s' R_R0 <= reg and_machine R_R0
        /\ (0 = 0 -> reg s' R_R0 = 0 /\ reg s' R_COND = FL_ZRO))
  /\ (exists s',
        execute 0x5FFF (at_pc_start 0x5FFF 0x1234) = Running s'
        /\ reg s' R_R7 = Z.land (reg (at_pc_start 0x5FFF 0x1234) R_R7) 0xFFFF
        /\ reg s' R_R7 <= reg (at_pc_start 0x5FFF 0x1234) R_R7
        /\ (0xFFFF = 0 -> reg s' R_R7 = 0 /\ reg s' R_COND = FL_ZRO)).
Proof.
  split; [split; [reflexivity | split; [reflexivity|]]|].
  - apply (X3_and_masks 0x5020 and_machine);
      [reflexivity | split; [vm_compute; discriminate | reflexivity]].
  - apply (X3_and_masks 0x5FFF (at_pc_start 0x5FFF 0x1234));
      [reflexivity | split; [vm_compute; discriminate | reflexivity]].
Defined.

Lemma execute_not instr s :
  Z.shiftr instr 12 = OP_NOT ->
  let r0 := Z.land (Z.shiftr instr 9) 0x7 in
  let r1 := Z.land (Z.shiftr instr 6) 0x7 in
  execute instr s = Running (update_flags r0 (set_reg r0 (Z.lnot (reg s r1)) s)).
Proof. intros Hop. enter_case Hop. reflexivity. Qed.

Lemma wrap16_lnot x : is_u16 x -> wrap16 (Z.lnot x) = 0xFFFF - x.
Proof.
  unfold is_u16, wrap16. intros Hx. rewrite Z.lnot_eq_pred_opp.
  symmetry. apply Z.mod_unique with (q := -1); lia.
Qed.

(** X4: NOT stores the 16-bit complement 0xFFFF - R[SR], and complementing
    the result again (NOT DR,DR) gives back the value R[SR] had. *)
Theorem X4_not_involutive (i1 i2 : Z) (s : state)
    (Hop1 : Z.shiftr i1 12 = OP_NOT) (Hop2 : Z.shiftr i2 12 = OP_NOT)
    (Hdst : Z.land (Z.shiftr i2 9) 0x7 = Z.land (Z.shiftr i1 9) 0x7)
    (Hsrc : Z.land (Z.shiftr i2 6) 0x7 = Z.land (Z.shiftr i1 9) 0x7)
    (Hval : is_u16 (reg s (Z.land (Z.shiftr i1 6) 0x7))) :
  exists s1 s2,
    execute i1 s = Running s1
    /\ execute i2 s1 = Running s2
    /\ reg s1 (Z.land (Z.shiftr i1 9) 0x7)
       = 0xFFFF - reg s (Z.land (Z.shiftr i1 6) 0x7)
    /\ reg s2 (Z.land (Z.shiftr i1 9) 0x7) = reg s (Z.land (Z.shiftr i1 6) 0x7).
Proof.
  set (dr := Z.land (Z.shiftr i1 9) 0x7) in *.
  set (sr := Z.land (Z.shiftr i1 6) 0x7) in *.
  assert (Hdr : dr <> R_COND) by apply field_not_special.
  eexists _, _. split; [now apply execute_not|].
  split; [now apply execute_not|].
  fold dr sr. rewrite Hdst, Hsrc.
  destruct (write_then_flags dr (Z.lnot (reg s sr)) s Hdr) as [H1 _].
  cbv zeta in H1. rewrite wrap16_lnot in H1 by assumption.
  split; [exact H1|].
  destruct (write_then_flags dr
              (Z.lnot (reg (update_flags dr (set_reg dr (Z.lnot (reg s sr)) s)) dr))
              (update_flags dr (set_reg dr (Z.lnot (reg s sr)) s)) Hdr)
    as [H2 _].
  cbv zeta in H2. rewrite H2, H1.
  rewrite wrap16_lnot by (unfold is_u16 in *; lia). lia.
Qed.

Lemma X4_not_involutive_witness :
  exists s1 s2,
    execute 0x927F (at_pc_start 0x927F 0) = Running s1
    /\ execute 0x927F s1 = Running s2
    /\ reg s1 R_R1 = 0xFFFF - reg (at_pc_start 0x927F 0) R_R1
    /\ reg s2 R_R1 = reg (at_pc_start 0x927F 0) R_R1.
Proof.
  apply (X4_not_involutive 0x927F 0x927F (at_pc_start 0x927F 0));
    try reflexivity.
  split; [vm_compute; discriminate | reflexivity].
Defined.

(** ** Control flow *)

Lemma execute_br instr s :
  Z.shiftr instr 12 = OP_BR ->
  execute instr s =
    if Z.land (Z.land (Z.shiftr instr 9) 0x7) (reg s R_COND) =? 0
    then Running s
    else Running (set_reg R_PC (reg s R_PC + sign_extend (Z.land instr 0x1FF) 9) s).
Proof.
  intros Hop. enter_case Hop. cbv zeta.
  destruct (Z.land (Z.land (Z.shiftr instr 9) 7) (reg s R_COND) =? 0); reflexivity.
Qed.

Lemma execute_jmp instr s :
  Z.shiftr instr 12 = OP_JMP ->
  execute instr s = Running (set_reg R_PC (reg s (Z.land (Z.shiftr instr 6) 0x7)) s).
Proof. intros Hop. enter_case Hop. reflexivity. Qed.

Lemma execute_jsr instr s :
  Z.shiftr instr 12 = OP_JSR ->
  let s7 := set_reg R_R7 (reg s R_PC) s in
  execute instr s =
    if Z.land (Z.shiftr instr 11) 1 =? 0
    then Running (set_reg R_PC (reg s7 (Z.land (Z.shiftr instr 6) 0x7)) s7)
    else Running (set_reg R_PC (reg s7 R_PC + sign_extend (Z.land instr 0x7FF) 11) s7).
Proof.
  intros Hop. enter_case Hop. cbv zeta.
  destruct (Z.land (Z.shiftr instr 11) 1 =? 0); reflexivity.
Qed.

(** An offset field added to a register, as the signed number it stands
    for. *)
Lemma add_sign_extend a x n k :
  1 <= n <= 16 -> Z.ones n = k ->
  wrap16 (a + sign_extend (Z.land x k) n)
  = wrap16 (a + signed_field (Z.land x k) n).
Proof.
  intros Hn <-.
  destruct (sign_extend_value (Z.land x (Z.ones n)) n Hn
              (land_mask_range x n ltac:(lia))) as [Hv _].
  rewrite Hv. apply wrap16_add_r.
Qed.

Lemma cond_ok_nzp7 s : cond_ok s -> Z.land 7 (reg s R_COND) <> 0.
Proof. intros [H|[H|H]]; rewrite H; vm_compute; discriminate. Qed.

(** X5: BR is taken exactly when its nzp field shares a bit with COND.  In
    a reachable state BRnzp (nzp = 7) is therefore always taken and a BR
    with nzp = 0 never; a taken branch lands at the incremented PC plus the
    signed 9-bit offset modulo 2^16, and no register but PC changes. *)
Theorem X5_branch (s : state) (instr : Z) (s1 : state)
    (Hs : reachable s)
    (Hfetch : fetch s = (instr, s1))
    (Hop : Z.shiftr instr 12 = OP_BR) :
  let nzp := Z.land (Z.shiftr instr 9) 0x7 in
  let next := wrap16 (reg s R_PC + 1) in
  let target := wrap16 (reg s R_PC + 1 + signed_field (Z.land instr 0x1FF) 9) in
  exists s',
    step s = Running s'
    /\ reg s' R_PC = (if Z.land nzp (reg s R_COND) =? 0 then next else target)
    /\ (nzp = 7 -> reg s' R_PC = target)
    /\ (nzp = 0 -> reg s' R_PC = next)
    /\ (forall r, r <> R_PC -> reg s' r = reg s r)
    /\ memory s' = memory s1 /\ io s' = io s1.
Proof.
  intros nzp next target.
  assert (Hc1 : reg s1 R_COND = reg s R_COND)
    by (apply (fetch_reg_other _ _ _ _ Hfetch); vm_compute; discriminate).
  assert (Hpc1 : reg s1 R_PC = next) by apply (fetch_reg_pc _ _ _ Hfetch).
  assert (Htarget :
    wrap16 (reg s1 R_PC + sign_extend (Z.land instr 0x1FF) 9) = target).
  { rewrite (add_sign_extend _ _ 9 0x1FF) by (try lia; reflexivity).
    rewrite Hpc1. unfold next, target. rewrite wrap16_add_l. reflexivity. }
  rewrite (step_fetch _ _ _ Hfetch), (execute_br _ _ Hop). fold nzp.
  rewrite Hc1.
  assert (Hres : exists s',
    (if Z.land nzp (reg s R_COND) =? 0
     then Running s1
     else Running (set_reg R_PC (reg s1 R_PC + sign_extend (Z.land instr 0x1FF) 9) s1))
    = Running s'
    /\ reg s' R_PC = (if Z.land nzp (reg s R_COND) =? 0 then next else target)
    /\ (forall r, r <> R_PC -> reg s' r = reg s r)
    /\ memory s' = memory s1 /\ io s' = io s1).
  { destruct (Z.land nzp (reg s R_COND) =? 0).
    - exists s1. repeat split; [exact Hpc1|].
      intros r Hr. now apply (fetch_reg_other _ _ _ _ Hfetch).
    - eexists. split; [reflexivity|].
      rewrite reg_set_reg_eq, Htarget. repeat split.
      intros r Hr. rewrite reg_set_reg_ne by congruence.
      now apply (fetch_reg_other _ _ _ _ Hfetch). }
  destruct Hres as (s' & Hrun & Hpc & Hregs & Hmem & Hio).
  exists s'. split; [exact Hrun|]. split; [exact Hpc|].
  split; [|split; [|repeat split; assumption]].
  - intros H7. rewrite Hpc, H7.
    pose proof (cond_ok_nzp7 s (reachable_cond_ok s Hs)) as Hnz.
    destruct (Z.eqb_spec (Z.land 7 (reg s R_COND)) 0); [contradiction | reflexivity].
  - intros H0. rewrite Hpc, H0. now rewrite Z.land_0_l.
Qed.

Lemma X5_branch_witness :
  exists s',
    step (start_machine 0x0E01) = Running s'
    /\ reg s' R_PC
       = (if Z.land (Z.land (Z.shiftr 0x0E01 9) 0x7)
               (reg (start_machine 0x0E01) R_COND) =? 0
          then wrap16 (reg (start_machine 0x0E01) R_PC + 1)
          else wrap16 (reg (start_machine 0x0E01) R_PC + 1
                       + signed_field (Z.land 0x0E01 0x1FF) 9))
    /\ (Z.land (Z.shiftr 0x0E01 9) 0x7 = 7 -> reg s' R_PC = 0x3002)
    /\ (Z.land (Z.shiftr 0x0E01 9) 0x7 = 0 ->
        reg s' R_PC = wrap16 (reg (start_machine 0x0E01) R_PC + 1))
    /\ (forall r, r <> R_PC -> reg s' r = reg (start_machine 0x0E01) r)
    /\ memory s' = memory (set_reg R_PC (PC_START + 1) (start_machine 0x0E01))
    /\ io s' = io (set_reg R_PC (PC_START + 1) (start_machine 0x0E01)).
Proof.
  apply (X5_branch (start_machine 0x0E01) 0x0E01
           (set_reg R_PC (PC_START + 1) (start_machine 0x0E01)));
    [apply reach_initial; reflexivity | reflexivity | reflexivity].
Defined.

(** X6: a subroutine call and its return.  JSR or JSRR leaves the
    incremented PC in R7 (in the long form PC moves by the signed 11-bit
    offset), and a later RET, that is any JMP through R7, brings PC back to
    that address. *)
Theorem X6_call_and_return (call ret : Z) (s : state)
    (Hcall : Z.shiftr call 12 = OP_JSR)
    (Hret : Z.shiftr ret 12 = OP_JMP)
    (Hbase : Z.land (Z.shiftr ret 6) 0x7 = R_R7) :
  exists s1 s2,
    execute call s = Running s1
    /\ reg s1 R_R7 = wrap16 (reg s R_PC)
    /\ (Z.land (Z.shiftr call 11) 1 = 1 ->
        reg s1 R_PC = wrap16 (reg s R_PC + signed_field (Z.land call 0x7FF) 11))
    /\ execute ret s1 = Running s2
    /\ reg s2 R_PC = wrap16 (reg s R_PC)
    /\ reg s2 R_R7 = wrap16 (reg s R_PC).
Proof.
  assert (H78 : R_R7 <> R_PC) by (vm_compute; discriminate).
  assert (H87 : R_PC <> R_R7) by (vm_compute; discriminate).
  assert (Hlink : exists s1,
    execute call s = Running s1
    /\ reg s1 R_R7 = wrap16 (reg s R_PC)
    /\ (Z.land (Z.shiftr call 11) 1 = 1 ->
        reg s1 R_PC = wrap16 (reg s R_PC + signed_field (Z.land call 0x7FF) 11))).
  { rewrite (execute_jsr _ _ Hcall). cbv zeta.
    destruct (Z.eqb_spec (Z.land (Z.shiftr call 11) 1) 0) as [H0|H1].
    - eexists. split; [reflexivity|].
      rewrite (reg_set_reg_ne R_PC R_R7) by assumption.
      rewrite reg_set_reg_eq. split; [reflexivity|]. intros H. congruence.
    - eexists. split; [reflexivity|].
      rewrite (reg_set_reg_ne R_PC R_R7) by assumption.
      rewrite !reg_set_reg_eq. split; [reflexivity|]. intros _.
      rewrite (reg_set_reg_ne R_R7 R_PC) by assumption.
      apply (add_sign_extend _ _ 11 0x7FF); [lia | reflexivity]. }
  destruct Hlink as (s1 & Hrun & H7 & Hpc).
  exists s1. eexists. split; [exact Hrun|]. split; [exact H7|].
  split; [exact Hpc|]. split; [now apply execute_jmp|].
  rewrite Hbase, reg_set_reg_eq, (reg_set_reg_ne R_PC R_R7) by assumption.
  rewrite H7, wrap16_idemp. split; reflexivity.
Qed.

Lemma X6_call_and_return_witness :
  exists s1 s2,
    execute 0x4802 (set_reg R_PC 0x3001 (start_machine 0x4802)) = Running s1
    /\ reg s1 R_R7 = wrap16 (reg (set_reg R_PC 0x3001 (start_machine 0x4802)) R_PC)
    /\ (Z.land (Z.shiftr 0x4802 11) 1 = 1 ->
        reg s1 R_PC
        = wrap16 (reg (set_reg R_PC 0x3001 (start_machine 0x4802)) R_PC
                  + signed_field (Z.land 0x4802 0x7FF) 11))
    /\ execute 0xC1C0 s1 = Running s2
    /\ reg s2 R_PC = wrap16 (reg (set_reg R_PC 0x3001 (start_machine 0x4802)) R_PC)
    /\ reg s2 R_R7 = wrap16 (reg (set_reg R_PC 0x3001 (start_machine 0x4802)) R_PC).
Proof.
  apply (X6_call_and_return 0x4802 0xC1C0
           (set_reg R_PC 0x3001 (start_machine 0x4802))); reflexivity.
Defined.

(** ** Loads and stores *)

Lemma execute_ld instr s :
  Z.shiftr instr 12 = OP_LD ->
  let r0 := Z.land (Z.shiftr instr 9) 0x7 in
  let r := mem_read (reg s R_PC + sign_extend (Z.land instr 0x1FF) 9) s in
  execute instr s = Running (update_flags r0 (set_reg r0 (fst r) (snd r))).
Proof.
  intros Hop. enter_case Hop. cbv zeta.
  destruct (mem_read _ s) as [v s1]. reflexivity.
Qed.

Lemma execute_ldi instr s :
  Z.shiftr instr 12 = OP_LDI ->
  let r0 := Z.land (Z.shiftr instr 9) 0x7 in
  let r1 := mem_read (reg s R_PC + sign_extend (Z.land instr 0x1FF) 9) s in
  let r2 := mem_read (fst r1) (snd r1) in
  execute instr s = Running (update_flags r0 (set_reg r0 (fst r2) (snd r2))).
Proof.
  intros Hop. enter_case Hop. cbv zeta.
  destruct (mem_read _ s) as [a s1]. cbn [fst snd].
  destruct (mem_read a s1) as [v s2]. reflexivity.
Qed.

Lemma execute_ldr instr s :
  Z.shiftr instr 12 = OP_LDR ->
  let r0 := Z.land (Z.shiftr instr 9) 0x7 in
  let r1 := Z.land (Z.shiftr instr 6) 0x7 in
  let r := mem_read (reg s r1 + sign_extend (Z.land instr 0x3F) 6) s in
  execute instr s = Running (update_flags r0 (set_reg r0 (fst r) (snd r))).
Proof.
  intros Hop. enter_case Hop. cbv zeta.
  destruct (mem_read _ s) as [v s1]. reflexivity.
Qed.

Lemma execute_lea instr s :
  Z.shiftr instr 12 = OP_LEA ->
  let r0 := Z.land (Z.shiftr instr 9) 0x7 in
  execute instr s
  = Running (update_flags r0
               (set_reg r0 (reg s R_PC + sign_extend (Z.land instr 0x1FF) 9) s)).
Proof. intros Hop. enter_case Hop. reflexivity. Qed.

Lemma execute_st instr s :
  Z.shiftr instr 12 = OP_ST ->
  execute instr s
  = Running (mem_write (reg s R_PC + sign_extend (Z.land instr 0x1FF) 9)
               (reg s (Z.land (Z.shiftr instr 9) 0x7)) s).
Proof. intros Hop. enter_case Hop. reflexivity. Qed.

Lemma execute_sti instr s :
  Z.shiftr instr 12 = OP_STI ->
  let r := mem_read (reg s R_PC + sign_extend (Z.land instr 0x1FF) 9) s in
  execute instr s
  = Running (mem_write (fst r) (reg (snd r) (Z.land (Z.shiftr instr 9) 0x7)) (snd r)).
Proof.
  intros Hop. enter_case Hop. cbv zeta.
  destruct (mem_read _ s) as [a s1]. reflexivity.
Qed.

Lemma execute_str instr s :
  Z.shiftr instr 12 = OP_STR ->
  execute instr s
  = Running (mem_write (reg s (Z.land (Z.shiftr instr 6) 0x7)
                        + sign_extend (Z.land instr 0x3F) 6)
               (reg s (Z.land (Z.shiftr instr 9) 0x7)) s).
Proof. intros Hop. enter_case Hop. reflexivity. Qed.

Lemma mem_mem_write_eq a v s : mem (mem_write a v s) (wrap16 a) = wrap16 v.
Proof. apply mem_set_mem_eq. Qed.

Lemma mem_mem_write_ne a a' v s :
  wrap16 a <> a' -> mem (mem_write a v s) a' = mem s a'.
Proof. apply mem_set_mem_ne. Qed.

Lemma mem_update_flags r s a : mem (update_flags r s) a = mem s a.
Proof. now rewrite update_flags_set. Qed.

Lemma mem_set_reg r v s a : mem (set_reg r v s) a = mem s a.
Proof. reflexivity. Qed.

(** X7: LDI follows the pointer.  With P the incremented PC plus the signed
    9-bit offset and A the word stored at P, neither of them KBSR, DR
    receives memory[A]; memory and the host are left as they were. *)
Theorem X7_ldi_follows_pointer (instr : Z) (s : state)
    (Hop : Z.shiftr instr 12 = OP_LDI) :
  let P := wrap16 (reg s R_PC + signed_field (Z.land instr 0x1FF) 9) in
  P <> MR_KBSR -> mem s P <> MR_KBSR ->
  is_u16 (mem s P) -> is_u16 (mem s (mem s P)) ->
  exists s',
    execute instr s = Running s'
    /\ reg s' (Z.land (Z.shiftr instr 9) 0x7) = mem s (mem s P)
    /\ memory s' = memory s /\ io s' = io s.
Proof.
  intros P HP HA HAu Hvu.
  assert (HPeq : wrap16 (reg s R_PC + sign_extend (Z.land instr 0x1FF) 9) = P)
    by (apply (add_sign_extend _ _ 9 0x1FF); [lia | reflexivity]).
  eexists. split; [now apply execute_ldi|]. cbv zeta.
  rewrite (mem_read_plain _ s) by (rewrite HPeq; exact HP).
  rewrite HPeq. cbn [fst snd].
  rewrite (mem_read_plain _ s) by (rewrite (wrap16_small _ HAu); exact HA).
  rewrite (wrap16_small _ HAu). cbn [fst snd].
  destruct (write_then_flags (Z.land (Z.shiftr instr 9) 0x7) (mem s (mem s P)) s)
    as [Hr _]; [apply field_not_special|].
  cbv zeta in Hr. rewrite Hr, (wrap16_small _ Hvu).
  rewrite update_flags_set. repeat split.
Qed.

Lemma X7_ldi_follows_pointer_witness :
  exists s',
    execute 0xA001 (set_mem 0x4000 0x00AA (set_mem 0x3001 0x4000 (start_machine 0xA001)))
      = Running s'
    /\ reg s' R_R0 = 0x00AA
    /\ memory s' = memory (set_mem 0x4000 0x00AA (set_mem 0x3001 0x4000 (start_machine 0xA001)))
    /\ io s' = io (set_mem 0x4000 0x00AA (set_mem 0x3001 0x4000 (start_machine 0xA001))).
Proof.
  apply (X7_ldi_follows_pointer 0xA001
           (set_mem 0x4000 0x00AA (set_mem 0x3001 0x4000 (start_machine 0xA001))));
    try reflexivity; try (vm_compute; discriminate);
    split; try reflexivity; vm_compute; discriminate.
Defined.

(** X8: what STR stores, LDR with the same base register and offset reads
    back.  The store changes the one cell at R[BaseR] plus the signed 6-bit
    offset and nothing else in memory. *)
Theorem X8_str_ldr_round_trip (st ld : Z) (s : state)
    (Hst : Z.shiftr st 12 = OP_STR) (Hld : Z.shiftr ld 12 = OP_LDR)
    (Hbase : Z.land (Z.shiftr ld 6) 0x7 = Z.land (Z.shiftr st 6) 0x7)
    (Hoff : Z.land ld 0x3F = Z.land st 0x3F) :
  let A := wrap16 (reg s (Z.land (Z.shiftr st 6) 0x7)
                   + signed_field (Z.land st 0x3F) 6) in
  A <> MR_KBSR ->
  is_u16 (reg s (Z.land (Z.shiftr st 9) 0x7)) ->
  exists s1 s2,
    execute st s = Running s1
    /\ mem s1 A = reg s (Z.land (Z.shiftr st 9) 0x7)
    /\ (forall a, a <> A -> mem s1 a = mem s a)
    /\ regs s1 = regs s
    /\ execute ld s1 = Running s2
    /\ reg s2 (Z.land (Z.shiftr ld 9) 0x7) = reg s (Z.land (Z.shiftr st 9) 0x7).
Proof.
  intros A HA Hv.
  set (base := Z.land (Z.shiftr st 6) 0x7) in *.
  set (sr := Z.land (Z.shiftr st 9) 0x7) in *.
  assert (HAeq : wrap16 (reg s base + sign_extend (Z.land st 0x3F) 6) = A)
    by (apply (add_sign_extend _ _ 6 0x3F); [lia | reflexivity]).
  eexists _, _. split; [now apply execute_str|]. fold base sr.
  split; [|split; [|split; [reflexivity|]]].
  - rewrite <- HAeq, mem_mem_write_eq. now apply wrap16_small.
  - intros a Ha. apply mem_mem_write_ne. rewrite HAeq. congruence.
  - split; [now apply execute_ldr|]. cbv zeta. rewrite Hbase, Hoff. fold base.
    change (reg (mem_write (reg s base + sign_extend (Z.land st 0x3F) 6)
                   (reg s sr) s) base) with (reg s base).
    rewrite mem_read_plain by (rewrite HAeq; exact HA).
    cbn [fst snd]. rewrite HAeq.
    match goal with
    | |- reg (update_flags ?r (set_reg ?r ?v ?s0)) ?r = _ =>
        destruct (write_then_flags r v s0) as [Hr _];
          [apply field_not_special|]
    end.
    cbv zeta in Hr. rewrite Hr, <- HAeq, mem_mem_write_eq.
    rewrite wrap16_idemp. now apply wrap16_small.
Qed.

Lemma X8_str_ldr_round_trip_witness :
  exists s1 s2,
    execute 0x7E42 (at_pc_start 0x7E42 0x1234) = Running s1
    /\ mem s1 0x0002 = reg (at_pc_start 0x7E42 0x1234) R_R7
    /\ (forall a, a <> 0x0002 -> mem s1 a = mem (at_pc_start 0x7E42 0x1234) a)
    /\ regs s1 = regs (at_pc_start 0x7E42 0x1234)
    /\ execute 0x6442 s1 = Running s2
    /\ reg s2 R_R2 = reg (at_pc_start 0x7E42 0x1234) R_R7.
Proof.
  apply (X8_str_ldr_round_trip 0x7E42 0x6442 (at_pc_start 0x7E42 0x1234));
    try reflexivity; try (vm_compute; discriminate).
  split; [vm_compute; discriminate | reflexivity].
Defined.

(** X9: what STI stores through a pointer, LDI with the same offset reads
    back, provided the pointer cell P and the cell A it names are not KBSR
    and the pointer does not name its own cell (then the store would
    replace the pointer). *)
Theorem X9_sti_ldi_round_trip (sti ldi : Z) (s : state)
    (Hsti : Z.shiftr sti 12 = OP_STI) (Hldi : Z.shiftr ldi 12 = OP_LDI)
    (Hoff : Z.land ldi 0x1FF = Z.land sti 0x1FF) :
  let P := wrap16 (reg s R_PC + signed_field (Z.land sti 0x1FF) 9) in
  P <> MR_KBSR -> mem s P <> MR_KBSR -> mem s P <> P ->
  is_u16 (mem s P) ->
  is_u16 (reg s (Z.land (Z.shiftr sti 9) 0x7)) ->
  exists s1 s2,
    execute sti s = Running s1
    /\ mem s1 (mem s P) = reg s (Z.land (Z.shiftr sti 9) 0x7)
    /\ (forall a, a <> mem s P -> mem s1 a = mem s a)
    /\ execute ldi s1 = Running s2
    /\ reg s2 (Z.land (Z.shiftr ldi 9) 0x7) = reg s (Z.land (Z.shiftr sti 9) 0x7).
Proof.
  intros P HP HA Hself HAu Hv.
  set (sr := Z.land (Z.shiftr sti 9) 0x7) in *.
  assert (HPeq : wrap16 (reg s R_PC + sign_extend (Z.land sti 0x1FF) 9) = P)
    by (apply (add_sign_extend _ _ 9 0x1FF); [lia | reflexivity]).
  assert (Hstore : execute sti s = Running (mem_write (mem s P) (reg s sr) s)).
  { rewrite (execute_sti _ _ Hsti). cbv zeta.
    rewrite mem_read_plain by (rewrite HPeq; exact HP).
    rewrite HPeq. reflexivity. }
  set (s1 := mem_write (mem s P) (reg s sr) s) in *.
  assert (Hcell : mem s1 (mem s P) = reg s sr).
  { unfold s1. rewrite <- (wrap16_small _ HAu) at 2.
    rewrite mem_mem_write_eq. now apply wrap16_small. }
  assert (Hothers : forall a, a <> mem s P -> mem s1 a = mem s a).
  { intros a Ha. apply mem_mem_write_ne. rewrite (wrap16_small _ HAu). congruence. }
  exists s1. eexists. split; [exact Hstore|]. split; [exact Hcell|].
  split; [exact Hothers|]. split; [now apply execute_ldi|]. cbv zeta.
  rewrite Hoff. change (reg s1 R_PC) with (reg s R_PC).
  rewrite (mem_read_plain _ s1) by (rewrite HPeq; exact HP).
  rewrite HPeq. cbn [fst snd].
  rewrite (Hothers P) by congruence.
  rewrite (mem_read_plain _ s1) by (rewrite (wrap16_small _ HAu); exact HA).
  rewrite (wrap16_small _ HAu). cbn [fst snd]. rewrite Hcell.
  match goal with
  | |- reg (update_flags ?r (set_reg ?r ?v ?s0)) ?r = _ =>
      destruct (write_then_flags r v s0) as [Hr _]; [apply field_not_special|]
  end.
  cbv zeta in Hr. rewrite Hr. now apply wrap16_small.
Qed.

Lemma X9_sti_ldi_round_trip_witness :
  exists s1 s2,
    execute 0xBE01 (set_mem 0x3001 0x4000 (at_pc_start 0xBE01 0x1234)) = Running s1
    /\ mem s1 0x4000 = 0x1234
    /\ (forall a, a <> 0x4000 ->
        mem s1 a = mem (set_mem 0x3001 0x4000 (at_pc_start 0xBE01 0x1234)) a)
    /\ execute 0xA401 s1 = Running s2
    /\ reg s2 R_R2 = 0x1234.
Proof.
  apply (X9_sti_ldi_round_trip 0xBE01 0xA401
           (set_mem 0x3001 0x4000 (at_pc_start 0xBE01 0x1234)));
    try reflexivity; try (vm_compute; discriminate);
    split; try reflexivity; vm_compute; discriminate.
Defined.

(** X10: LEA computes the address LD reads.  After LEA DR,off the register
    holds the incremented PC plus the signed offset, and LDR through that
    register with offset 0 loads the same word as LD with the same offset
    does. *)
Theorem X10_lea_then_ldr (lea ldr ld : Z) (s : state)
    (Hlea : Z.shiftr lea 12 = OP_LEA)
    (Hldr : Z.shiftr ldr 12 = OP_LDR)
    (Hld : Z.shiftr ld 12 = OP_LD)
    (Hoff : Z.land ld 0x1FF = Z.land lea 0x1FF)
    (Hbase : Z.land (Z.shiftr ldr 6) 0x7 = Z.land (Z.shiftr lea 9) 0x7)
    (Hzero : Z.land ldr 0x3F = 0) :
  let P := wrap16 (reg s R_PC + signed_field (Z.land lea 0x1FF) 9) in
  P <> MR_KBSR -> is_u16 (mem s P) ->
  exists s1 s2 s3,
    execute lea s = Running s1
    /\ reg s1 (Z.land (Z.shiftr lea 9) 0x7) = P
    /\ memory s1 = memory s
    /\ execute ldr s1 = Running s2
    /\ reg s2 (Z.land (Z.shiftr ldr 9) 0x7) = mem s P
    /\ execute ld s = Running s3
    /\ reg s3 (Z.land (Z.shiftr ld 9) 0x7) = mem s P.
Proof.
  intros P HP Hv.
  set (dr := Z.land (Z.shiftr lea 9) 0x7) in *.
  assert (Hdr : dr <> R_COND) by apply field_not_special.
  assert (HPeq : wrap16 (reg s R_PC + sign_extend (Z.land lea 0x1FF) 9) = P)
    by (apply (add_sign_extend _ _ 9 0x1FF); [lia | reflexivity]).
  destruct (write_then_flags dr (reg s R_PC + sign_extend (Z.land lea 0x1FF) 9) s Hdr)
    as [H1 _].
  cbv zeta in H1. rewrite HPeq in H1.
  set (s1 := update_flags dr (set_reg dr (reg s R_PC + sign_extend (Z.land lea 0x1FF) 9) s))
    in *.
  assert (Hm1 : forall a, mem s1 a = mem s a)
    by (intros a; unfold s1; now rewrite mem_update_flags).
  exists s1. eexists _, _. split; [now apply execute_lea|].
  split; [exact H1|].
  split; [unfold s1; now rewrite update_flags_set|].
  split; [now apply execute_ldr|]. cbv zeta.
  rewrite Hbase, Hzero. fold dr. change (sign_extend 0 6) with 0.
  rewrite H1, Z.add_0_r.
  assert (HPu : is_u16 P) by apply wrap16_range.
  rewrite mem_read_plain by (rewrite (wrap16_small _ HPu); exact HP).
  rewrite (wrap16_small _ HPu). cbn [fst snd]. rewrite Hm1.
  split.
  - match goal with
    | |- reg (update_flags ?r (set_reg ?r ?v ?s0)) ?r = _ =>
        destruct (write_then_flags r v s0) as [Hr _]; [apply field_not_special|]
    end.
    cbv zeta in Hr. rewrite Hr. now apply wrap16_small.
  - split; [now apply execute_ld|]. cbv zeta. rewrite Hoff.
    rewrite mem_read_plain by (rewrite HPeq; exact HP).
    rewrite HPeq. cbn [fst snd].
    match goal with
    | |- reg (update_flags ?r (set_reg ?r ?v ?s0)) ?r = _ =>
        destruct (write_then_flags r v s0) as [Hr _]; [apply field_not_special|]
    end.
    cbv zeta in Hr. rewrite Hr. now apply wrap16_small.
Qed.

Lemma X10_lea_then_ldr_witness :
  exists s1 s2 s3,
    execute 0xE002 (set_mem 0x3002 0x00AA (start_machine 0xE002)) = Running s1
    /\ reg s1 R_R0 = 0x3002
    /\ memory s1 = memory (set_mem 0x3002 0x00AA (start_machine 0xE002))
    /\ execute 0x6200 s1 = Running s2
    /\ reg s2 R_R1 = 0x00AA
    /\ execute 0x2202 (set_mem 0x3002 0x00AA (start_machine 0xE002)) = Running s3
    /\ reg s3 R_R1 = 0x00AA.
Proof.
  apply (X10_lea_then_ldr 0xE002 0x6200 0x2202
           (set_mem 0x3002 0x00AA (start_machine 0xE002)));
    try reflexivity; try (vm_compute; discriminate);
    split; try reflexivity; vm_compute; discriminate.
Defined.

(** ** Trap routines *)

Lemma execute_trap_getc instr s :
  Z.shiftr instr 12 = OP_TRAP -> Z.land instr 0xFF = TRAP_GETC ->
  let s7 := set_reg R_R7 (reg s R_PC) s in
  let r := getchar (io s7) in
  execute instr s
  = Running (update_flags R_R0 (set_reg R_R0 (fst r) (with_io (snd r) s7))).
Proof.
  intros Hop Hv. enter_case Hop. cbv zeta. rewrite Hv. pick_case.
  destruct (getchar _) as [ch h]. reflexivity.
Qed.

Lemma io_update_flags r s : io (update_flags r s) = io s.
Proof. now rewrite update_flags_set. Qed.

(** X11: GETC stores the byte it reads in R0 (high byte 0) without echoing
    it, takes it off standard input, and sets ZRO for a NUL byte and POS for
    any other; at end of input it stores 0xFFFF, the 16 low bits of EOF,
    and sets NEG. *)
Theorem X11_getc (instr : Z) (s : state)
    (Hop : Z.shiftr instr 12 = OP_TRAP)
    (Hvect : Z.land instr 0xFF = TRAP_GETC) :
  exists s',
    execute instr s = Running s'
    /\ stdout (io s') = stdout (io s)
    /\ reg s' R_R7 = wrap16 (reg s R_PC)
    /\ (stdin (io s) = [] ->
        reg s' R_R0 = 0xFFFF /\ reg s' R_COND = FL_NEG /\ stdin (io s') = [])
    /\ (forall key rest, stdin (io s) = key :: rest -> 0 <= key < 256 ->
        reg s' R_R0 = key /\ stdin (io s') = rest
        /\ reg s' R_COND = (if key =? 0 then FL_ZRO else FL_POS)).
Proof.
  eexists. split; [now apply execute_trap_getc|]. cbv zeta.
  set (s7 := set_reg R_R7 (reg s R_PC) s).
  destruct (write_then_flags R_R0 (fst (getchar (io s7)))
              (with_io (snd (getchar (io s7))) s7)) as [Hr Hc];
    [vm_compute; discriminate|].
  cbv zeta in Hr, Hc. rewrite io_update_flags.
  change (io (set_reg R_R0 (fst (getchar (io s7)))
                (with_io (snd (getchar (io s7))) s7)))
    with (snd (getchar (io s7))).
  change (io s7) with (io s) in *.
  split; [|split; [|split]].
  - apply getchar_output.
  - rewrite reg_update_flags_other by (vm_compute; discriminate).
    rewrite reg_set_reg_ne by (vm_compute; discriminate).
    apply reg_set_reg_eq.
  - intros Hin. rewrite Hc, Hr.
    destruct (getchar_end (io s) Hin) as [-> ->]. repeat split.
  - intros key rest Hin Hkey. rewrite Hc, Hr.
    destruct (getchar_next (io s) key rest Hin) as [-> ->].
    rewrite wrap16_small by (unfold is_u16; lia).
    split; [reflexivity|]. split; [reflexivity|].
    unfold flag_of_sign, signed16.
    destruct (Z.ltb_spec key 32768); [|lia].
    destruct (Z.eqb_spec key 0); [reflexivity|].
    destruct (Z.ltb_spec key 0); [lia | reflexivity].
Qed.

Lemma X11_getc_witness :
  (exists s',
     execute 0xF020 idle_machine = Running s'
     /\ reg s' R_R0 = 0xFFFF /\ reg s' R_COND = FL_NEG /\ stdin (io s') = [])
  /\ (exists s',
     execute 0xF020 keyed_machine = Running s'
     /\ stdout (io s') = stdout (io keyed_machine)
     /\ reg s' R_R0 = 0x61 /\ stdin (io s') = []
     /\ reg s' R_COND = FL_POS).
Proof.
  split.
  - destruct (X11_getc 0xF020 idle_machine eq_refl eq_refl)
      as (s' & He & _ & _ & Heof & _).
    exists s'. split; [exact He|]. apply Heof. reflexivity.
  - destruct (X11_getc 0xF020 keyed_machine eq_refl eq_refl)
      as (s' & He & Hout & _ & _ & Hkey).
    exists s'. split; [exact He|]. split; [exact Hout|].
    apply (Hkey 0x61 []); [reflexivity | lia].
Defined.

Lemma put_bytes_nil h : put_bytes [] h = h.
Proof. destruct h. unfold put_bytes. cbn. now rewrite app_nil_r. Qed.

Lemma put_bytes_putc bs ch h :
  put_bytes bs (putc ch h) = put_bytes (ch mod 256 :: bs) h.
Proof. unfold put_bytes, putc. cbn. now rewrite <- app_assoc. Qed.

Lemma put_bytes_app bs1 bs2 h :
  put_bytes bs2 (put_bytes bs1 h) = put_bytes (bs1 ++ bs2) h.
Proof. unfold put_bytes. cbn. now rewrite <- app_assoc. Qed.

Lemma stored_at_tail m a w ws :
  stored_at m a (w :: ws) -> arr_get m a = w /\ stored_at m (a + 1) ws.
Proof.
  intros H. split.
  - specialize (H O w eq_refl). now rewrite Z.add_0_r in H.
  - intros i w' Hi. specialize (H (S i) w' Hi).
    now replace (a + 1 + Z.of_nat i) with (a + Z.of_nat (S i)) by lia.
Qed.

(** The PUTS loop prints the low byte of every word up to the first zero
    word. *)
Lemma puts_loop_prints m ws : forall room a h,
  Forall (fun w => w <> 0) ws ->
  stored_at m a ws ->
  arr_get m (a + Z.of_nat (length ws)) = 0 ->
  (length ws < room)%nat ->
  puts_loop room a m h = Some (put_bytes (map (fun w => w mod 256) ws) h).
Proof.
  induction ws as [|w ws IH]; intros room a h Hnz Hst Hend Hroom.
  - destruct room as [|room]; [cbn in Hroom; lia|].
    cbn in Hend. rewrite Z.add_0_r in Hend.
    cbn [puts_loop map]. rewrite Hend. cbn. now rewrite put_bytes_nil.
  - destruct room as [|room]; [cbn in Hroom; lia|].
    apply stored_at_tail in Hst. destruct Hst as [Hw Hst].
    inversion Hnz as [|? ? Hw0 Hnz']; subst.
    cbn [puts_loop map].
    destruct (Z.eqb_spec (arr_get m a) 0) as [H0|_]; [contradiction|].
    cbn [negb]. rewrite (IH room (a + 1)); try assumption.
    + now rewrite put_bytes_putc.
    + rewrite <- Hend. f_equal. cbn [length]. lia.
    + cbn [length] in Hroom. lia.
Qed.

(** Without a zero word between the start and the end of the array the
    loops run off the array. *)
Lemma puts_loop_overrun m : forall room a h,
  (forall a', a <= a' < a + Z.of_nat room -> arr_get m a' <> 0) ->
  puts_loop room a m h = None.
Proof.
  induction room as [|room IH]; intros a h Hnz; [reflexivity|].
  cbn [puts_loop].
  destruct (Z.eqb_spec (arr_get m a) 0) as [H0|_].
  - exfalso. apply (Hnz a); [lia | exact H0].
  - cbn [negb]. apply IH. intros a' Ha. apply Hnz. lia.
Qed.

Lemma putsp_loop_overrun m : forall room sp h,
  (forall a', sp <= a' < sp + Z.of_nat room -> arr_get m a' <> 0) ->
  putsp_loop room sp m h = None.
Proof.
  induction room as [|room IH]; intros sp h Hnz; [reflexivity|].
  cbn [putsp_loop].
  destruct (Z.eqb_spec (arr_get m sp) 0) as [H0|_].
  - exfalso. apply (Hnz sp); [lia | exact H0].
  - cbn [negb]. cbv zeta. apply IH. intros a' Ha. apply Hnz. lia.
Qed.

Lemma putsp_word w h :
  (if negb (Z.shiftr w 8 mod 256 =? 0)
   then putc (Z.shiftr w 8) (putc (Z.land w 0xFF) h)
   else putc (Z.land w 0xFF) h)
  = put_bytes (packed_bytes w) h.
Proof.
  unfold packed_bytes.
  rewrite Z.shiftr_div_pow2 by lia. change (2 ^ 8) with 256.
  assert (Hlow : Z.land w 0xFF mod 256 = w mod 256).
  { change 0xFF with (Z.ones 8). rewrite Z.land_ones by lia.
    change (2 ^ 8) with 256. apply Z.mod_mod. lia. }
  destruct ((w / 256) mod 256 =? 0); cbn [negb].
  - unfold putc, put_bytes. cbn. now rewrite Hlow.
  - unfold putc, put_bytes. cbn. rewrite Hlow, <- app_assoc. reflexivity.
Qed.

Lemma putsp_loop_prints m ws : forall room sp h,
  Forall (fun w => w <> 0) ws ->
  stored_at m sp ws ->
  arr_get m (sp + Z.of_nat (length ws)) = 0 ->
  (length ws < room)%nat ->
  putsp_loop room sp m h = Some (put_bytes (concat (map packed_bytes ws)) h).
Proof.
  induction ws as [|w ws IH]; intros room sp h Hnz Hst Hend Hroom.
  - destruct room as [|room]; [cbn in Hroom; lia|].
    cbn in Hend. rewrite Z.add_0_r in Hend.
    cbn [putsp_loop map concat]. rewrite Hend. cbn. now rewrite put_bytes_nil.
  - destruct room as [|room]; [cbn in Hroom; lia|].
    apply stored_at_tail in Hst. destruct Hst as [Hw Hst].
    inversion Hnz as [|? ? Hw0 Hnz']; subst.
    cbn [putsp_loop map concat].
    destruct (Z.eqb_spec (arr_get m sp) 0) as [H0|_]; [contradiction|].
    cbn [negb]. cbv zeta. rewrite putsp_word.
    rewrite (IH room (sp + 1)); try assumption.
    + now rewrite put_bytes_app.
    + rewrite <- Hend. f_equal. cbn [length]. lia.
    + cbn [length] in Hroom. lia.
Qed.

Lemma execute_trap_puts instr s :
  Z.shiftr instr 12 = OP_TRAP -> Z.land instr 0xFF = TRAP_PUTS ->
  execute instr s =
    match puts_loop (Z.to_nat (MEMORY_MAX - reg s R_R0)) (reg s R_R0)
            (memory s) (io s) with
    | Some h => Running (with_io h (set_reg R_R7 (reg s R_PC) s))
    | None => OutOfBounds
    end.
Proof.
  intros Hop Hv. enter_case Hop. cbv zeta. rewrite Hv. pick_case.
  rewrite (reg_set_reg_ne R_R7 R_R0) by (vm_compute; discriminate).
  reflexivity.
Qed.

Lemma execute_trap_putsp instr s :
  Z.shiftr instr 12 = OP_TRAP -> Z.land instr 0xFF = TRAP_PUTSP ->
  execute instr s =
    match putsp_loop (Z.to_nat (MEMORY_MAX - reg s R_R0)) (reg s R_R0)
            (memory s) (io s) with
    | Some h => Running (with_io h (set_reg R_R7 (reg s R_PC) s))
    | None => OutOfBounds
    end.
Proof.
  intros Hop Hv. enter_case Hop. cbv zeta. rewrite Hv. pick_case.
  rewrite (reg_set_reg_ne R_R7 R_R0) by (vm_compute; discriminate).
  reflexivity.
Qed.

Lemma room_for (ws : list Z) a :
  0 <= a -> a + Z.of_nat (length ws) < 65536 ->
  (length ws < Z.to_nat (MEMORY_MAX - a))%nat.
Proof. intros Ha Hlen. change MEMORY_MAX with 65536. lia. Qed.

(** X12: PUTS prints a zero-terminated string.  When the non-zero words
    [ws] stand in memory from R0 on, followed by a zero word inside the
    array, TRAP x22 appends the low byte of each of them to standard output,
    one byte per word, and changes only R7. *)
Theorem X12_puts_prints (instr : Z) (s : state) (ws : list Z)
    (Hop : Z.shiftr instr 12 = OP_TRAP)
    (Hvect : Z.land instr 0xFF = TRAP_PUTS)
    (Hnz : Forall (fun w => w <> 0) ws)
    (Hstr : stored_at (memory s) (reg s R_R0) ws)
    (Hend : mem s (reg s R_R0 + Z.of_nat (length ws)) = 0)
    (Hlo : 0 <= reg s R_R0)
    (Hhi : reg s R_R0 + Z.of_nat (length ws) < 65536) :
  exists s',
    execute instr s = Running s'
    /\ stdout (io s') = stdout (io s) ++ map (fun w => w mod 256) ws
    /\ stdin (io s') = stdin (io s)
    /\ memory s' = memory s
    /\ regs s' = regs (set_reg R_R7 (reg s R_PC) s).
Proof.
  rewrite (execute_trap_puts _ _ Hop Hvect).
  rewrite (puts_loop_prints (memory s) ws _ _ (io s) Hnz Hstr Hend
             (room_for ws _ Hlo Hhi)).
  eexists. split; [reflexivity|]. repeat split.
Qed.

Lemma stored_at_hi instr :
  stored_at (memory (hi_machine instr)) (reg (hi_machine instr) R_R0) [0x48; 0x69].
Proof.
  intros [|[|i]] w Hi; inversion Hi; subst; reflexivity.
Qed.

Lemma X12_puts_prints_witness :
  exists s',
    execute 0xF022 (hi_machine 0xF022) = Running s'
    /\ stdout (io s') = stdout (io (hi_machine 0xF022)) ++ [0x48; 0x69]
    /\ stdin (io s') = stdin (io (hi_machine 0xF022))
    /\ memory s' = memory (hi_machine 0xF022)
    /\ regs s' = regs (set_reg R_R7 (reg (hi_machine 0xF022) R_PC) (hi_machine 0xF022)).
Proof.
  apply (X12_puts_prints 0xF022 (hi_machine 0xF022) [0x48; 0x69]);
    try reflexivity.
  - repeat constructor; discriminate.
  - apply stored_at_hi.
  - vm_compute. discriminate.
Defined.

(** X13: PUTSP prints a packed string.  For each non-zero word from R0 on,
    up to a zero word inside the array, TRAP x24 writes the low byte (even
    when it is 0) and then the high byte unless that is 0. *)
Theorem X13_putsp_prints (instr : Z) (s : state) (ws : list Z)
    (Hop : Z.shiftr instr 12 = OP_TRAP)
    (Hvect : Z.land instr 0xFF = TRAP_PUTSP)
    (Hnz : Forall (fun w => w <> 0) ws)
    (Hstr : stored_at (memory s) (reg s R_R0) ws)
    (Hend : mem s (reg s R_R0 + Z.of_nat (length ws)) = 0)
    (Hlo : 0 <= reg s R_R0)
    (Hhi : reg s R_R0 + Z.of_nat (length ws) < 65536) :
  exists s',
    execute instr s = Running s'
    /\ stdout (io s') = stdout (io s) ++ concat (map packed_bytes ws)
    /\ stdin (io s') = stdin (io s)
    /\ memory s' = memory s
    /\ regs s' = regs (set_reg R_R7 (reg s R_PC) s).
Proof.
  rewrite (execute_trap_putsp _ _ Hop Hvect).
  rewrite (putsp_loop_prints (memory s) ws _ _ (io s) Hnz Hstr Hend
             (room_for ws _ Hlo Hhi)).
  eexists. split; [reflexivity|]. repeat split.
Qed.

Lemma X13_putsp_prints_witness :
  exists s',
    execute 0xF024 (packed_hi_machine 0xF024) = Running s'
    /\ stdout (io s') = stdout (io (packed_hi_machine 0xF024)) ++ [0x48; 0x69]
    /\ stdin (io s') = stdin (io (packed_hi_machine 0xF024))
    /\ memory s' = memory (packed_hi_machine 0xF024)
    /\ regs s' = regs (set_reg R_R7 (reg (packed_hi_machine 0xF024) R_PC)
                         (packed_hi_machine 0xF024)).
Proof.
  apply (X13_putsp_prints 0xF024 (packed_hi_machine 0xF024) [0x6948]);
    try reflexivity.
  - repeat constructor; discriminate.
  - intros [|i] w Hi; inversion Hi; subst; reflexivity.
  - vm_compute. discriminate.
Defined.

(** X14: a string without end.  When no word from R0 to the end of memory
    is zero, neither PUTS nor PUTSP stops inside the array: the loop walks
    its pointer past memory[65535]. *)
Theorem X14_unterminated_string (instr : Z) (s : state)
    (Hop : Z.shiftr instr 12 = OP_TRAP)
    (Hvect : Z.land instr 0xFF = TRAP_PUTS \/ Z.land instr 0xFF = TRAP_PUTSP)
    (Hnz : forall a, reg s R_R0 <= a < 65536 -> mem s a <> 0) :
  execute instr s = OutOfBounds.
Proof.
  assert (Hroom : forall a,
    reg s R_R0 <= a < reg s R_R0 + Z.of_nat (Z.to_nat (MEMORY_MAX - reg s R_R0)) ->
    arr_get (memory s) a <> 0).
  { intros a Ha. apply Hnz. change MEMORY_MAX with 65536 in Ha. lia. }
  destruct Hvect as [Hv|Hv].
  - rewrite (execute_trap_puts _ _ Hop Hv).
    now rewrite (puts_loop_overrun (memory s) _ _ (io s) Hroom).
  - rewrite (execute_trap_putsp _ _ Hop Hv).
    now rewrite (putsp_loop_overrun (memory s) _ _ (io s) Hroom).
Qed.

Lemma X14_unterminated_string_witness :
  execute 0xF022 (last_cell_machine 0xF022) = OutOfBounds
  /\ execute 0xF024 (last_cell_machine 0xF024) = OutOfBounds.
Proof.
  split.
  - apply (X14_unterminated_string 0xF022 (last_cell_machine 0xF022));
      [reflexivity | left; reflexivity |].
    intros a Ha. change (reg (last_cell_machine 0xF022) R_R0) with 0xFFFF in Ha.
    replace a with 0xFFFF by lia. vm_compute. discriminate.
  - apply (X14_unterminated_string 0xF024 (last_cell_machine 0xF024));
      [reflexivity | right; reflexivity |].
    intros a Ha. change (reg (last_cell_machine 0xF024) R_R0) with 0xFFFF in Ha.
    replace a with 0xFFFF by lia. vm_compute. discriminate.
Defined.

(** ** What an instruction leaves alone *)

Lemma mem_read_mem_other addr s v s' a :
  mem_read addr s = (v, s') -> a <> MR_KBSR -> a <> MR_KBDR -> mem s' a = mem s a.
Proof.
  unfold mem_read. intros H Hs Hd.
  destruct (wrap16 addr =? MR_KBSR).
  - destruct (negb (check_key (io s) =? 0)).
    + destruct (getchar _) as [ch h]. inversion H; subst.
      rewrite mem_set_mem_ne by congruence.
      change (mem (with_io h (set_mem MR_KBSR (Z.shiftl 1 15) s)) a)
        with (mem (set_mem MR_KBSR (Z.shiftl 1 15) s) a).
      now rewrite mem_set_mem_ne by congruence.
    + inversion H; subst. now rewrite mem_set_mem_ne by congruence.
  - now inversion H.
Qed.

Lemma mem_with_io h s a : mem (with_io h s) a = mem s a.
Proof. reflexivity. Qed.

(** Reduce [mem s' a], for a cell that is not a keyboard register, to the
    cell in the state the case started from. *)
Ltac trace_mem Hs Hd :=
  repeat first
    [ rewrite mem_update_flags
    | rewrite mem_set_reg
    | rewrite mem_with_io
    | match goal with
      | H : mem_read _ ?s = (_, ?s') |- context [mem ?s' _] =>
          rewrite (mem_read_mem_other _ _ _ _ _ H Hs Hd)
      end ];
  try reflexivity.

(** X15: only the three store instructions write ordinary memory.  Any
    other instruction leaves every cell except the keyboard registers KBSR
    and KBDR as it was. *)
Theorem X15_only_stores_write (instr : Z) (s : state)
    (Hst : Z.shiftr instr 12 <> OP_ST)
    (Hsti : Z.shiftr instr 12 <> OP_STI)
    (Hstr : Z.shiftr instr 12 <> OP_STR) :
  outcome_holds
    (fun s' => forall a, a <> MR_KBSR -> a <> MR_KBDR -> mem s' a = mem s a)
    (execute instr s).
Proof.
  apply Z.eqb_neq in Hst, Hsti, Hstr.
  unfold execute. rewrite Hst, Hsti, Hstr.
  repeat case_match; unfold outcome_holds; try exact I;
    intros a Hs Hd; trace_mem Hs Hd.
Qed.

Lemma X15_only_stores_write_witness :
  mem (update_flags R_R1
         (set_reg R_R1 (reg (start_machine 0x127F) R_R1 + 0xFFFF)
            (start_machine 0x127F))) 0x3000
  = mem (start_machine 0x127F) 0x3000.
Proof.
  assert (H : forall a, a <> MR_KBSR -> a <> MR_KBDR ->
            mem (update_flags R_R1
                   (set_reg R_R1 (reg (start_machine 0x127F) R_R1 + 0xFFFF)
                      (start_machine 0x127F))) a
            = mem (start_machine 0x127F) a)
    by (apply (X15_only_stores_write 0x127F (start_machine 0x127F));
        vm_compute; discriminate).
  apply H; vm_compute; discriminate.
Defined.

Ltac not_pc :=
  first [ apply field_not_special | vm_compute; discriminate ].

(** Reduce [reg s' R_PC] to the PC of the state the case started from. *)
Ltac trace_pc :=
  repeat first
    [ rewrite reg_update_flags_other by not_pc
    | rewrite reg_set_reg_ne by not_pc
    | rewrite reg_mem_write
    | rewrite reg_with_io
    | match goal with
      | H : mem_read _ ?s = (_, ?s') |- context [reg ?s' R_PC] =>
          rewrite (mem_read_reg _ _ _ _ R_PC H)
      end ];
  try reflexivity.

Lemma execute_keeps_pc instr s :
  Z.shiftr instr 12 <> OP_BR ->
  Z.shiftr instr 12 <> OP_JMP ->
  Z.shiftr instr 12 <> OP_JSR ->
  outcome_holds (fun s' => reg s' R_PC = reg s R_PC) (execute instr s).
Proof.
  intros Hbr Hjmp Hjsr. apply Z.eqb_neq in Hbr, Hjmp, Hjsr.
  unfold execute. rewrite Hbr, Hjmp, Hjsr.
  repeat case_match; unfold outcome_holds; try exact I; trace_pc.
Qed.

(** X16: PC moves by one.  Unless the instruction fetched is BR, JMP or
    JSR, a pass through the loop leaves PC exactly one past where it was,
    modulo 2^16 (so 0xFFFF is followed by 0x0000). *)
Theorem X16_pc_advances (s : state) (instr : Z) (s1 : state)
    (Hfetch : fetch s = (instr, s1))
    (Hbr : Z.shiftr instr 12 <> OP_BR)
    (Hjmp : Z.shiftr instr 12 <> OP_JMP)
    (Hjsr : Z.shiftr instr 12 <> OP_JSR) :
  outcome_holds (fun s' => reg s' R_PC = (reg s R_PC + 1) mod 65536) (step s).
Proof.
  rewrite (step_fetch _ _ _ Hfetch).
  pose proof (execute_keeps_pc instr s1 Hbr Hjmp Hjsr) as H.
  pose proof (fetch_reg_pc _ _ _ Hfetch) as Hpc. unfold wrap16 in Hpc.
  destruct (execute instr s1); cbn [outcome_holds] in *; congruence.
Qed.

Lemma X16_pc_advances_witness :
  outcome_holds (fun s' => reg s' R_PC = (0xFFFF + 1) mod 65536)
    (step (set_reg R_PC 0xFFFF (set_mem 0xFFFF 0x127F (start_machine 0))))
  /\ (0xFFFF + 1) mod 65536 = 0.
Proof.
  split; [|reflexivity].
  apply (X16_pc_advances
           (set_reg R_PC 0xFFFF (set_mem 0xFFFF 0x127F (start_machine 0)))
           0x127F
           (set_reg R_PC (0xFFFF + 1)
              (set_reg R_PC 0xFFFF (set_mem 0xFFFF 0x127F (start_machine 0)))));
    [reflexivity | vm_compute; discriminate ..].
Defined.

Lemma memory_update_flags r s : memory (update_flags r s) = memory s.
Proof. now rewrite update_flags_set. Qed.

Lemma with_io_id s : with_io (io s) s = s.
Proof. now destruct s. Qed.

(** The state a TRAP leaves: R7 written, then host traffic, and for GETC and
    IN a write to R0 followed by [update_flags]. *)
Lemma execute_trap_shape instr s :
  Z.shiftr instr 12 = OP_TRAP ->
  let s7 := set_reg R_R7 (reg s R_PC) s in
  outcome_holds
    (fun s' =>
       exists h,
         s' = with_io h s7
         \/ (exists v, s' = update_flags R_R0 (set_reg R_R0 v (with_io h s7))
                       /\ (Z.land instr 0xFF = TRAP_GETC
                           \/ Z.land instr 0xFF = TRAP_IN)))
    (execute instr s).
Proof.
  intros Hop s7. enter_case Hop. cbv zeta. fold s7.
  repeat case_match; unfold outcome_holds; try exact I;
    try (eexists; left; reflexivity);
    try (exists (io s7); left; symmetry; apply with_io_id);
    eexists; right; eexists; (split; [reflexivity|]);
    match goal with
    | H : (_ =? TRAP_GETC) = true |- _ => left; now apply Z.eqb_eq
    | H : (_ =? TRAP_IN) = true |- _ => right; now apply Z.eqb_eq
    end.
Qed.

(** X17: every TRAP, whatever its vector, saves the incremented PC in R7
    and leaves PC, memory and R1..R6 as they were; only GETC and IN write
    R0 and COND. *)
Theorem X17_trap_linkage (instr : Z) (s : state)
    (Hop : Z.shiftr instr 12 = OP_TRAP) :
  outcome_holds
    (fun s' =>
       reg s' R_R7 = wrap16 (reg s R_PC)
       /\ reg s' R_PC = reg s R_PC
       /\ memory s' = memory s
       /\ (forall r, 1 <= r <= 6 -> reg s' r = reg s r)
       /\ (Z.land instr 0xFF <> TRAP_GETC -> Z.land instr 0xFF <> TRAP_IN ->
           reg s' R_R0 = reg s R_R0 /\ reg s' R_COND = reg s R_COND))
    (execute instr s).
Proof.
  pose proof (execute_trap_shape instr s Hop) as Hshape. cbv zeta in Hshape.
  assert (Hgoal : forall s',
    (exists h,
       s' = with_io h (set_reg R_R7 (reg s R_PC) s)
       \/ (exists v,
             s' = update_flags R_R0
                    (set_reg R_R0 v (with_io h (set_reg R_R7 (reg s R_PC) s)))
             /\ (Z.land instr 0xFF = TRAP_GETC \/ Z.land instr 0xFF = TRAP_IN))) ->
    reg s' R_R7 = wrap16 (reg s R_PC)
    /\ reg s' R_PC = reg s R_PC
    /\ memory s' = memory s
    /\ (forall r, 1 <= r <= 6 -> reg s' r = reg s r)
    /\ (Z.land instr 0xFF <> TRAP_GETC -> Z.land instr 0xFF <> TRAP_IN ->
        reg s' R_R0 = reg s R_R0 /\ reg s' R_COND = reg s R_COND)).
  { intros s' [h [-> | (v & -> & Hv)]].
    - rewrite !reg_with_io, reg_set_reg_eq.
      split; [reflexivity|].
      split; [apply reg_set_reg_ne; vm_compute; discriminate|].
      split; [reflexivity|].
      split; [intros r Hr; apply reg_set_reg_ne; unfold R_R7; lia|].
      intros _ _. rewrite ?reg_with_io.
      split; apply reg_set_reg_ne; vm_compute; discriminate.
    - rewrite memory_update_flags.
      rewrite !reg_update_flags_other by (vm_compute; discriminate).
      rewrite !(reg_set_reg_ne R_R0) by (vm_compute; discriminate).
      rewrite !reg_with_io, reg_set_reg_eq.
      split; [reflexivity|].
      split; [apply reg_set_reg_ne; vm_compute; discriminate|].
      split; [reflexivity|].
      split.
      + intros r Hr. rewrite ?reg_update_flags_other by (unfold R_COND; lia).
        rewrite ?(reg_set_reg_ne R_R0) by (unfold R_R0; lia).
        rewrite ?reg_with_io. apply reg_set_reg_ne. unfold R_R7. lia.
      + intros Hg Hi. exfalso. destruct Hv; contradiction. }
  destruct (execute instr s); cbn [outcome_holds] in *;
    try exact I; now apply Hgoal.
Qed.

Lemma X17_trap_linkage_witness :
  outcome_holds
    (fun s' =>
       reg s' R_R7 = wrap16 (reg (start_machine 0xF021) R_PC)
       /\ reg s' R_PC = reg (start_machine 0xF021) R_PC
       /\ memory s' = memory (start_machine 0xF021)
       /\ (forall r, 1 <= r <= 6 -> reg s' r = reg (start_machine 0xF021) r)
       /\ (Z.land 0xF021 0xFF <> TRAP_GETC -> Z.land 0xF021 0xFF <> TRAP_IN ->
           reg s' R_R0 = reg (start_machine 0xF021) R_R0
           /\ reg s' R_COND = reg (start_machine 0xF021) R_COND))
    (execute 0xF021 (start_machine 0xF021)).
Proof. apply (X17_trap_linkage 0xF021 (start_machine 0xF021)). reflexivity. Defined.

(** ** The loop *)

Lemma spin_pass s :
  cond_ok s -> is_u16 (reg s R_PC) -> reg s R_PC <> MR_KBSR ->
  mem s (reg s R_PC) = 0x0FFF ->
  exists s',
    step s = Running s'
    /\ (forall r, reg s' r = reg s r)
    /\ memory s' = memory s /\ io s' = io s.
Proof.
  intros Hc Hpc Hnot Hinstr.
  assert (Hw : wrap16 (reg s R_PC) = reg s R_PC) by now apply wrap16_small.
  assert (Hf : fetch s = (0x0FFF, set_reg R_PC (reg s R_PC + 1) s)).
  { rewrite fetch_plain by now rewrite Hw. now rewrite Hw, Hinstr. }
  rewrite (step_fetch _ _ _ Hf), (execute_br 0x0FFF) by reflexivity.
  change (Z.land (Z.shiftr 0x0FFF 9) 0x7) with 7.
  change (sign_extend (Z.land 0x0FFF 0x1FF) 9) with 0xFFFF.
  rewrite (reg_set_reg_ne R_PC R_COND) by (vm_compute; discriminate).
  destruct (Z.eqb_spec (Z.land 7 (reg s R_COND)) 0) as [E|_];
    [now apply cond_ok_nzp7 in E|].
  eexists. split; [reflexivity|]. split; [|split; reflexivity].
  intros r. destruct (Z.eq_dec r R_PC) as [->|Hr].
  - rewrite !reg_set_reg_eq, wrap16_add_l.
    unfold wrap16. unfold is_u16 in Hpc.
    symmetry. apply Z.mod_unique with (q := 1); lia.
  - rewrite !reg_set_reg_ne by congruence. reflexivity.
Qed.

(** X18: the loop has no bound of its own.  A BRnzp to itself (0x0FFF) in a
    reachable state is taken in every pass and puts PC back where it was:
    however many passes are run the loop is still running, on the same
    registers, memory and host. *)
Theorem X18_branch_to_self_spins (n : nat) (s : state)
    (Hs : reachable s)
    (Hpc : is_u16 (reg s R_PC))
    (Hnot : reg s R_PC <> MR_KBSR)
    (Hinstr : mem s (reg s R_PC) = 0x0FFF) :
  exists s',
    run n s = Running s'
    /\ (forall r, reg s' r = reg s r)
    /\ memory s' = memory s /\ io s' = io s.
Proof.
  apply reachable_cond_ok in Hs. revert s Hs Hpc Hnot Hinstr.
  induction n as [|n IH]; intros s Hs Hpc Hnot Hinstr.
  - exists s. repeat split.
  - destruct (spin_pass s Hs Hpc Hnot Hinstr) as (s1 & Hstep & Hr & Hm & Hio).
    destruct (IH s1) as (s' & Hrun & Hr' & Hm' & Hio').
    + unfold cond_ok. now rewrite Hr.
    + now rewrite Hr.
    + now rewrite Hr.
    + unfold mem. rewrite Hm, Hr. exact Hinstr.
    + exists s'. cbn [run]. rewrite Hstep. split; [exact Hrun|].
      split; [intros r; now rewrite Hr', Hr|].
      split; [now rewrite Hm', Hm | now rewrite Hio', Hio].
Qed.

Lemma X18_branch_to_self_spins_witness :
  exists s',
    run 1000 (start_machine 0x0FFF) = Running s'
    /\ (forall r, reg s' r = reg (start_machine 0x0FFF) r)
    /\ memory s' = memory (start_machine 0x0FFF)
    /\ io s' = io (start_machine 0x0FFF).
Proof.
  apply (X18_branch_to_self_spins 1000 (start_machine 0x0FFF)).
  - apply reach_initial. reflexivity.
  - split; [vm_compute; discriminate | reflexivity].
  - vm_compute. discriminate.
  - reflexivity.
Defined.

(** Only TRAP HALT clears [running], and it prints its message first. *)
Lemma execute_halt_only instr s :
  halted_holds
    (fun s' =>
       Z.shiftr instr 12 = OP_TRAP /\ Z.land instr 0xFF = TRAP_HALT
       /\ stdout (io s') = stdout (io s) ++ halt_message)
    (execute instr s).
Proof.
  unfold execute.
  repeat case_match; unfold halted_holds; try exact I.
  repeat split; now apply Z.eqb_eq.
Qed.

Lemma step_halt_message s :
  halted_holds (fun s' => exists out, stdout (io s') = out ++ halt_message) (step s).
Proof.
  unfold step. destruct (fetch s) as [instr s1].
  pose proof (execute_halt_only instr s1) as H.
  destruct (execute instr s1); cbn [halted_holds] in *; try exact I.
  destruct H as (_ & _ & H). eauto.
Qed.

Lemma run_halt_message fuel : forall s,
  halted_holds (fun s' => exists out, stdout (io s') = out ++ halt_message)
    (run fuel s).
Proof.
  induction fuel as [|fuel IH]; intros s; cbn [run]; [exact I|].
  pose proof (step_halt_message s) as Hs.
  destruct (step s) as [s1|s1|]; cbn [halted_holds] in *;
    [apply IH | exact Hs | exact I].
Qed.

(** What the [for] loop over the images tells: a failure names a path that
    could not be opened, success means every path was opened. *)
Lemma load_images_result fs paths : forall s r,
  load_images fs paths s = Some r ->
  match r with
  | inl (path, _) => path ∈ paths /\ fs path = None
  | inr _ => forall path, path ∈ paths -> is_Some (fs path)
  end.
Proof.
  induction paths as [|p paths IH]; intros s r H; cbn [load_images] in H.
  - inversion H. intros path Hin. now apply elem_of_nil in Hin.
  - unfold read_image in H. destruct (fs p) as [file|] eqn:Hfs.
    + destruct (read_image_file file s) as [s1|]; [|discriminate].
      change (1 =? 0) with false in H. cbv iota in H.
      specialize (IH s1 r H). destruct r as [[path s']|s'].
      * destruct IH as [Hin Hnone]. split; [now apply list_elem_of_further | exact Hnone].
      * intros path Hin. apply elem_of_cons in Hin. destruct Hin as [->|Hin].
        -- rewrite Hfs. eauto.
        -- now apply IH.
    + change (0 =? 0) with true in H. cbv iota in H. inversion H.
      split; [apply list_elem_of_here | exact Hfs].
Qed.

(** ** Exit paths of [main] *)

Lemma read_image_file_io file s s' :
  read_image_file file s = Some s' -> io s' = io s.
Proof.
  unfold read_image_file. destruct file as [|b0 [|b1 rest]]; try discriminate.
  cbv zeta. destruct (fread_words _ _ _ _) as [read m].
  intros H. now inversion H.
Qed.

Lemma load_images_io fs paths : forall s r,
  load_images fs paths s = Some r ->
  match r with
  | inl (_, s') | inr s' => io s' = io s
  end.
Proof.
  induction paths as [|p paths IH]; intros s r H; cbn [load_images] in H.
  - now inversion H.
  - unfold read_image in H. destruct (fs p) as [file|].
    + destruct (read_image_file file s) as [s1|] eqn:Hr; [|discriminate].
      change (1 =? 0) with false in H. cbv iota in H.
      specialize (IH s1 r H). apply read_image_file_io in Hr.
      destruct r as [[path s']|s']; congruence.
    + change (0 =? 0) with true in H. cbv iota in H. now inversion H.
Qed.

(** X19: how [main] ends.  Status 2 means no image was named: only the
    usage line is printed and memory is untouched.  Status 1 means one of
    the named images could not be opened: the line naming it is printed.
    Status 0 means every image was opened and the program reached TRAP
    HALT, whose message is the last thing printed. *)
Theorem X19_exit_status (ICANON ECHO : Z) (fs : string -> option (list Z))
    (argv : list string) (fuel : nat) (s : state) (status : Z) (s' : state)
    (Hmain : main ICANON ECHO fs argv fuel s = Exit status s') :
  (status = 2 /\ (length argv < 2)%nat
   /\ stdout (io s') = stdout (io s) ++ usage_message
   /\ memory s' = memory s)
  \/ (status = 1 /\ (2 <= length argv)%nat
      /\ exists path,
           path ∈ tail argv /\ fs path = None
           /\ stdout (io s') = stdout (io s) ++ load_failure_message path)
  \/ (status = 0 /\ (2 <= length argv)%nat
      /\ (forall path, path ∈ tail argv -> is_Some (fs path))
      /\ exists out, stdout (io s') = out ++ halt_message).
Proof.
  unfold main in Hmain. cbv zeta in Hmain.
  destruct (Z.ltb_spec (Z.of_nat (length argv)) 2) as [Hlt|Hge].
  - left. inversion Hmain; subst. repeat split. lia.
  - right.
    destruct (load_images _ _ _) as [[[path s1]|s1]|] eqn:Hl; try discriminate.
    + left. inversion Hmain; subst.
      pose proof (load_images_result _ _ _ _ Hl) as [Hin Hnone].
      pose proof (load_images_io _ _ _ _ Hl) as Hio. cbn in Hio.
      split; [reflexivity|]. split; [lia|].
      exists path. split; [exact Hin|]. split; [exact Hnone|].
      cbn. now rewrite Hio.
    + right.
      pose proof (load_images_result _ _ _ _ Hl) as Hall. cbn in Hall.
      pose proof (run_halt_message fuel
                    (set_reg R_PC PC_START (set_reg R_COND FL_ZRO s1))) as Hh.
      destruct (run fuel _) as [s2|s2|]; try discriminate.
      inversion Hmain; subst. cbn [halted_holds] in Hh.
      split; [reflexivity|]. split; [lia|]. split; assumption.
Qed.

Lemma X19_exit_status_witness :
  (exists s',
     main linux_ICANON linux_ECHO empty_fs ["lc3"]%string 1 (boot 0 cooked_host)
       = Exit 2 s'
     /\ stdout (io s') = usage_message)
  /\ (exists s',
     main linux_ICANON linux_ECHO empty_fs halt_argv 1 (boot 0 cooked_host)
       = Exit 1 s'
     /\ stdout (io s') = load_failure_message "halt.obj")
  /\ (exists s' out,
     main linux_ICANON linux_ECHO halt_fs halt_argv 1 (boot 0 cooked_host)
       = Exit 0 s'
     /\ stdout (io s') = out ++ halt_message).
Proof.
  split; [|split].
  - eexists. split; [reflexivity|].
    destruct (X19_exit_status linux_ICANON linux_ECHO empty_fs ["lc3"]%string 1
                (boot 0 cooked_host) 2 _ eq_refl)
      as [(_ & _ & H & _) | [(H & _) | (H & _)]];
      [exact H | discriminate H | discriminate H].
  - eexists. split; [reflexivity|].
    destruct (X19_exit_status linux_ICANON linux_ECHO empty_fs halt_argv 1
                (boot 0 cooked_host) 1 _ eq_refl)
      as [(H & _) | [(_ & _ & path & _ & _ & H) | (H & _)]];
      [discriminate H | reflexivity | discriminate H].
  - destruct (X19_exit_status linux_ICANON linux_ECHO halt_fs halt_argv 1
                (boot 0 cooked_host) 0 _ eq_refl)
      as [(H & _) | [(H & _) | (_ & _ & _ & out & H)]];
      [discriminate H | discriminate H |].
    eexists. exists out. split; [reflexivity | exact H].
Defined.

(** ** Loading images *)

(** X20: for an origin from 1 to 0xFFFF the loader stores the payload words
    at [O], [O+1], ... and stops at the end of memory: a payload longer than
    [65536 - O] words is cut there and does not wrap round to address 0.  No
    other cell, no register and nothing of the host changes. *)
Theorem X20_loader_places_payload (O : Z) (ws : list Z) (s : state)
    (HO : 1 <= O <= 0xFFFF) (Hws : Forall is_u16 ws) :
  exists s',
    read_image_file (image_bytes O ws) s = Some s'
    /\ (forall (i : nat) w, ws !! i = Some w -> Z.of_nat i < 65536 - O ->
          mem s' (O + Z.of_nat i) = w)
    /\ (forall a, ~ image_range O ws a -> mem s' a = mem s a)
    /\ regs s' = regs s /\ io s' = io s.
Proof. now apply read_image_file_loads. Qed.

Lemma X20_loader_places_payload_witness :
  exists s',
    read_image_file (image_bytes 0xFFFF [0x1234; 0xF025]) idle_machine = Some s'
    /\ mem s' 0xFFFF = 0x1234
    /\ mem s' 0 = mem idle_machine 0
    /\ regs s' = regs idle_machine /\ io s' = io idle_machine.
Proof.
  destruct (X20_loader_places_payload 0xFFFF [0x1234; 0xF025] idle_machine)
    as (s' & Hr & Hin & Hout & Hregs & Hio).
  - lia.
  - repeat constructor; unfold is_u16; lia.
  - exists s'. split; [exact Hr|]. split; [|split; [|split; assumption]].
    + apply (Hin O 0x1234); [reflexivity | simpl; lia].
    + apply Hout. unfold image_range. simpl. lia.
Defined.

(** X21: images loaded one after the other overlay.  After two images the
    cells of the second hold its payload, the cells of the first that the
    second does not cover hold the first's payload, and every other cell is
    as before. *)
Theorem X21_images_overlay (O1 O2 : Z) (ws1 ws2 : list Z) (s : state)
    (HO1 : 1 <= O1 <= 0xFFFF) (HO2 : 1 <= O2 <= 0xFFFF)
    (Hws1 : Forall is_u16 ws1) (Hws2 : Forall is_u16 ws2) :
  exists s1 s2,
    read_image_file (image_bytes O1 ws1) s = Some s1
    /\ read_image_file (image_bytes O2 ws2) s1 = Some s2
    /\ (forall (i : nat) w, ws2 !! i = Some w -> Z.of_nat i < 65536 - O2 ->
          mem s2 (O2 + Z.of_nat i) = w)
    /\ (forall (i : nat) w, ws1 !! i = Some w -> Z.of_nat i < 65536 - O1 ->
          ~ image_range O2 ws2 (O1 + Z.of_nat i) ->
          mem s2 (O1 + Z.of_nat i) = w)
    /\ (forall a, ~ image_range O1 ws1 a -> ~ image_range O2 ws2 a ->
          mem s2 a = mem s a).
Proof.
  destruct (read_image_file_loads O1 ws1 s HO1 Hws1)
    as (s1 & Hr1 & Hin1 & Hout1 & _).
  destruct (read_image_file_loads O2 ws2 s1 HO2 Hws2)
    as (s2 & Hr2 & Hin2 & Hout2 & _).
  exists s1, s2. split; [exact Hr1|]. split; [exact Hr2|].
  split; [exact Hin2|]. split.
  - intros i w Hi Hlt Hnot. rewrite Hout2 by exact Hnot. now apply Hin1.
  - intros a H1 H2. rewrite Hout2 by exact H2. now apply Hout1.
Qed.

Lemma X21_images_overlay_witness :
  exists s1 s2,
    read_image_file (image_bytes 0x3000 [0x1111; 0x2222]) idle_machine = Some s1
    /\ read_image_file (image_bytes 0x3001 [0x3333]) s1 = Some s2
    /\ mem s2 0x3001 = 0x3333
    /\ mem s2 0x3000 = 0x1111
    /\ mem s2 0x3002 = mem idle_machine 0x3002.
Proof.
  destruct (X21_images_overlay 0x3000 0x3001 [0x1111; 0x2222] [0x3333] idle_machine)
    as (s1 & s2 & Hr1 & Hr2 & Hin2 & Hin1 & Hout).
  - lia.
  - lia.
  - repeat constructor; unfold is_u16; lia.
  - repeat constructor; unfold is_u16; lia.
  - exists s1, s2. split; [exact Hr1|]. split; [exact Hr2|].
    split; [|split].
    + apply (Hin2 O 0x3333); [reflexivity | simpl; lia].
    + apply (Hin1 O 0x1111); [reflexivity | simpl; lia |].
      unfold image_range. simpl. lia.
    + apply Hout; unfold image_range; simpl; lia.
Defined.

(** ** Keyboard registers *)

(** X22: type-ahead hides keys from the poll.  A read of KBSR that finds
    keys waiting on the descriptor delivers the first in KBDR, and [getchar]
    moves the others into its buffer, where [select] does not look: while
    nothing new arrives the next read of KBSR returns 0 and KBDR keeps the
    first key, though the others are still to be read. *)
Theorem X22_typeahead_hidden (s : state) (k1 : Z) (rest : list Z)
    (Hbuf : buffered (io s) = [])
    (Hpend : pending (io s) = k1 :: rest)
    (Hfit : (length rest < bufsiz (io s))%nat)
    (Hopen : closed (io s) = false)
    (Hk1 : 0 <= k1 < 256) :
  exists s1 s2,
    mem_read MR_KBSR s = (0x8000, s1)
    /\ mem s1 MR_KBDR = k1
    /\ stdin (io s1) = rest ++ later (io s)
    /\ mem_read MR_KBSR s1 = (0, s2)
    /\ mem s2 MR_KBDR = k1
    /\ stdin (io s2) = rest ++ later (io s).
Proof.
  assert (Hg : getchar (io s)
               = (k1, with_input rest [] (later (io s)) false (io s))).
  { unfold getchar. rewrite Hbuf, Hpend, Hopen.
    rewrite take_ge, drop_ge by lia. reflexivity. }
  assert (H1 : mem_read MR_KBSR s =
               (0x8000,
                set_mem MR_KBDR k1
                  (with_io (with_input rest [] (later (io s)) false (io s))
                     (set_mem MR_KBSR (Z.shiftl 1 15) s)))).
  { rewrite mem_read_kbsr_ready by (unfold check_key; now rewrite Hpend).
    now rewrite Hg. }
  eexists _, _. split; [exact H1|].
  assert (Hd : forall s0, mem (set_mem MR_KBDR k1 s0) MR_KBDR = k1)
    by (intros s0; rewrite mem_set_mem_eq; apply wrap16_small;
        unfold is_u16; lia).
  split; [apply Hd|]. split; [reflexivity|].
  split; [apply mem_read_kbsr_idle; unfold check_key; cbn;
          now destruct (later (io s))|].
  split; [|reflexivity].
  rewrite mem_set_mem_ne by (vm_compute; discriminate). apply Hd.
Qed.

Lemma X22_typeahead_hidden_witness :
  exists s1 s2,
    mem_read MR_KBSR typeahead_machine = (0x8000, s1)
    /\ mem s1 MR_KBDR = 0x61
    /\ stdin (io s1) = [0x62] ++ later (io typeahead_machine)
    /\ mem_read MR_KBSR s1 = (0, s2)
    /\ mem s2 MR_KBDR = 0x61
    /\ stdin (io s2) = [0x62] ++ later (io typeahead_machine).
Proof.
  apply (X22_typeahead_hidden typeahead_machine 0x61 [0x62]);
    [reflexivity | reflexivity | cbn; lia | reflexivity | lia].
Defined.

(** X23: memory holds what was written, except at KBSR.  A read after a
    write to the same address returns the written word; at KBSR the read
    polls the keyboard first, so it returns 0 or 0x8000 whatever was
    written. *)
Theorem X23_write_then_read (addr val : Z) (s : state) :
  (wrap16 addr <> MR_KBSR ->
     mem_read addr (mem_write addr val s) = (wrap16 val, mem_write addr val s))
  /\ (wrap16 addr = MR_KBSR ->
     fst (mem_read addr (mem_write addr val s)) = 0
     \/ fst (mem_read addr (mem_write addr val s)) = 0x8000).
Proof.
  split.
  - intros Hne. rewrite mem_read_plain by exact Hne.
    now rewrite mem_mem_write_eq.
  - intros Heq. unfold mem_read. rewrite Heq. cbn [fst]. pick_case.
    destruct (negb (check_key (io (mem_write addr val s)) =? 0)).
    + right. destruct (getchar _) as [ch h].
      rewrite mem_set_mem_ne by (vm_compute; discriminate).
      rewrite mem_with_io, mem_set_mem_eq. reflexivity.
    + left. now rewrite mem_set_mem_eq.
Qed.

Lemma X23_write_then_read_witness :
  mem_read 0x4000 (mem_write 0x4000 0x1234 idle_machine)
    = (wrap16 0x1234, mem_write 0x4000 0x1234 idle_machine)
  /\ (fst (mem_read MR_KBSR (mem_write MR_KBSR 0x1234 idle_machine)) = 0
      \/ fst (mem_read MR_KBSR (mem_write MR_KBSR 0x1234 idle_machine)) = 0x8000).
Proof.
  split.
  - apply (proj1 (X23_write_then_read 0x4000 0x1234 idle_machine)).
    vm_compute. discriminate.
  - apply (proj2 (X23_write_then_read MR_KBSR 0x1234 idle_machine)).
    reflexivity.
Defined.

(** ** Terminal settings on the way out *)

(** X24: SIGINT puts the terminal back.  Once [main] has switched the
    terminal, loaded its images and entered the loop, the interrupt handler
    restores exactly the settings the terminal had when [main] started,
    prints a newline and exits with status 254; machine state is not
    touched. *)
Theorem X24_sigint_restores (ICANON ECHO : Z) (fs : string -> option (list Z))
    (paths : list string) (fuel : nat) (s s1 s2 : state)
    (Hload : load_images fs paths (disable_input_buffering ICANON ECHO s)
             = Some (inr s1))
    (Hrun : run fuel (set_reg R_PC PC_START (set_reg R_COND FL_ZRO s1))
            = Running s2) :
  exists s3,
    handle_interrupt s2 = Exit (-2) s3
    /\ exit_status (-2) = 254
    /\ tty (io s3) = tty (io s)
    /\ stdout (io s3) = stdout (io s2) ++ [10]
    /\ memory s3 = memory s2 /\ regs s3 = regs s2.
Proof.
  pose proof (load_images_term _ _ _ _ Hload) as H1. cbn in H1.
  pose proof (run_term fuel (set_reg R_PC PC_START (set_reg R_COND FL_ZRO s1)))
    as H2.
  rewrite Hrun in H2. cbn [outcome_holds] in H2.
  rewrite !term_set_reg, H1, disable_input_buffering_term in H2.
  unfold term_of in H2. inversion H2 as [[Htty Horig]].
  eexists. split; [reflexivity|]. split; [reflexivity|].
  cbn. rewrite Horig. repeat split.
Qed.

Lemma X24_sigint_restores_witness :
  exists s3,
    handle_interrupt
      (set_reg R_PC PC_START
         (set_reg R_COND FL_ZRO
            (with_memory (arr_set ∅ 0x3000 0xF025) cooked_start)))
      = Exit (-2) s3
    /\ exit_status (-2) = 254
    /\ tty (io s3) = cooked_tty
    /\ stdout (io s3) = [10].
Proof.
  destruct (X24_sigint_restores linux_ICANON linux_ECHO halt_fs ["halt.obj"]%string
              O (boot 0 cooked_host)
              (with_memory (arr_set ∅ 0x3000 0xF025) cooked_start)
              (set_reg R_PC PC_START
                 (set_reg R_COND FL_ZRO
                    (with_memory (arr_set ∅ 0x3000 0xF025) cooked_start)))
              eq_refl eq_refl)
    as (s3 & Hi & Hst & Htty & Hout & _).
  exists s3. repeat split; assumption.
Defined.

Lemma land_cleared_bit x a b : Z.land (Z.land x (Z.land (Z.lnot a) (Z.lnot b))) a = 0
                               /\ Z.land (Z.land x (Z.land (Z.lnot a) (Z.lnot b))) b = 0.
Proof.
  split; apply Z.bits_inj'; intros i Hi;
    rewrite !Z.land_spec, !Z.lnot_spec, Z.bits_0 by lia;
    destruct (Z.testbit x i), (Z.testbit a i), (Z.testbit b i); reflexivity.
Qed.

(** X25: [main] itself never puts the terminal back.  Whatever the exit
    status (0 after HALT, 1 for an image that cannot be opened, 2 for a
    missing argument), the terminal is left with ICANON and ECHO cleared and
    its other settings as they were, while [original_tio] still holds what
    it had at the start. *)
Theorem X25_main_leaves_raw_mode (ICANON ECHO : Z)
    (fs : string -> option (list Z)) (argv : list string) (fuel : nat)
    (s : state) (status : Z) (s' : state)
    (Hmain : main ICANON ECHO fs argv fuel s = Exit status s') :
  original_tio s' = tty (io s)
  /\ Z.land (c_lflag (tty (io s'))) ICANON = 0
  /\ Z.land (c_lflag (tty (io s'))) ECHO = 0
  /\ c_lflag (tty (io s'))
     = Z.land (c_lflag (tty (io s))) (Z.land (Z.lnot ICANON) (Z.lnot ECHO))
  /\ c_iflag (tty (io s')) = c_iflag (tty (io s))
  /\ c_oflag (tty (io s')) = c_oflag (tty (io s))
  /\ c_cflag (tty (io s')) = c_cflag (tty (io s)).
Proof.
  pose proof (main_never_restores _ _ _ _ _ _ _ _ Hmain) as H.
  rewrite disable_input_buffering_term in H. unfold term_of in H.
  inversion H as [[Htty Horig]]. rewrite Htty.
  cbn [c_lflag c_iflag c_oflag c_cflag].
  destruct (land_cleared_bit (c_lflag (tty (io s))) ICANON ECHO) as [Hi He].
  split; [reflexivity|]. split; [exact Hi|]. split; [exact He|].
  repeat split; now rewrite Horig.
Qed.

Lemma X25_main_leaves_raw_mode_witness :
  exists s',
    main linux_ICANON linux_ECHO halt_fs halt_argv 1 (boot 0 cooked_host) = Exit 0 s'
    /\ original_tio s' = cooked_tty
    /\ Z.land (c_lflag (tty (io s'))) linux_ICANON = 0
    /\ Z.land (c_lflag (tty (io s'))) linux_ECHO = 0.
Proof.
  eexists. split; [reflexivity|].
  destruct (X25_main_leaves_raw_mode linux_ICANON linux_ECHO halt_fs halt_argv 1
              (boot 0 cooked_host) 0 _ eq_refl)
    as (H1 & H2 & H3 & _).
  repeat split; assumption.
Defined.
